(** * The GitHub component of a projen project

    A shallow embedding of [src/github/github.ts]: the [GitHub] component
    reads its options, conditionally constructs child components, and
    exposes queries ([of], [workflows], [tryFindWorkflow]) and factories
    ([addWorkflow], [addPullRequestTemplate], [addDependabot]) over the
    component collection of its project.

    JavaScript objects and arrays are mutable and shared by reference, so
    the embedding keeps an explicit heap: components are references into
    an object store, and arrays (the project's component collection, the
    arrays produced by [filter]) are references into an array store.
    Methods are computations in a state monad over that heap. *)

From Stdlib Require Import ZArith List String Ascii Bool Lia OrdersEx.
From Stdlib Require Import Sorting.Sorted Sorting.Permutation.
From stdpp Require Import base decidable list strings sorting.

Import ListNotations.
Local Open Scope string_scope.
Local Open Scope list_scope.
Set Warnings "-register-all".

(** ** JavaScript values and option objects *)

Module JS.

(** The values an options literal can hold. *)
Inductive Value :=
| Undefined
| Null
| Boolean (b : bool)
| Number (n : Z)
| Str (s : string)
| Obj (props : list (string * Value)).

(** An object literal: its own properties, in order. *)
Definition Object := list (string * Value).

(** ECMAScript [ToBoolean]: every object is truthy, the empty one
    included. *)
Definition ToBoolean (v : Value) : bool :=
  match v with
  | Undefined | Null => false
  | Boolean b => b
  | Number n => negb (n =? 0)%Z
  | Str s => negb (String.eqb s "")
  | Obj _ => true
  end.

(** A property declared [p?: T] on an interface.  The key may be left
    out of the literal, or be there holding [undefined] or a value. *)
Inductive Optional (T : Type) :=
| Absent
| Present (v : option T).
Arguments Absent {T}.
Arguments Present {T} v.

(** The [in] operator: is the key in the object? *)
Definition has_key {T} (p : Optional T) : bool :=
  match p with Absent => false | Present _ => true end.

(** Property read [o.p]: a missing key reads as [undefined] ([None]). *)
Definition get {T} (p : Optional T) : option T :=
  match p with Absent => None | Present v => v end.

(** [a ?? b] *)
Definition nullish {T} (a : option T) (b : T) : T :=
  match a with Some v => v | None => b end.

(** The value of type [T | undefined] read from an object-typed
    property, as it is seen by an [if]. *)
Definition of_object (v : option Object) : Value :=
  match v with Some o => Obj o | None => Undefined end.

End JS.

Notation "a ?? b" := (JS.nullish a b) (at level 45, left associativity).

(** ** Options of the component and of its children *)

(** Modelled from the spec: the option interfaces of the children
    ([MergifyOptions], [PullRequestLintOptions], [AutoApproveOptions],
    [AutoMergeOptions], [StaleOptions], [DependabotOptions]) are declared
    outside this slice; the component only passes them through, so each is
    an opaque object literal. *)
Definition MergifyOptions := JS.Object.
Definition PullRequestLintOptions := JS.Object.
Definition AutoApproveOptions := JS.Object.
Definition AutoMergeOptions := JS.Object.
Definition StaleOptions := JS.Object.
Definition DependabotOptions := JS.Object.

Module GitHubOptions.

Record t := mk {
  mergify : JS.Optional bool;
  mergifyOptions : JS.Optional MergifyOptions;
  workflows : JS.Optional bool;
  pullRequestLint : JS.Optional bool;
  pullRequestLintOptions : JS.Optional PullRequestLintOptions;
  projenTokenSecret : JS.Optional string;
  autoApproveOptions : JS.Optional AutoApproveOptions;
  autoMergeOptions : JS.Optional AutoMergeOptions;
  staleOptions : JS.Optional StaleOptions;
  stale : JS.Optional bool
}.

(** The literal [{}], the default of the constructor's parameter. *)
Definition empty : t :=
  mk JS.Absent JS.Absent JS.Absent JS.Absent JS.Absent
     JS.Absent JS.Absent JS.Absent JS.Absent JS.Absent.

End GitHubOptions.

(** ** Objects, arrays and the heap *)

(** A reference to an object: its address in the object store.  Two
    references denote the same object exactly when they are equal. *)
Definition Ref := nat.

(** Modelled from the spec: [Project] (src/project.ts is outside this
    slice) owns an ordered, insertion-order collection of components.  As
    far as this slice sees it, a project is the holder of that array
    ([project.components]), given by the array's address. *)
Record Project := mkProject { components : nat }.

(** The fields [GitHub] declares; each is [undefined] ([None]) until the
    constructor assigns it. *)
Record GitHubFields := mkGitHubFields {
  mergify : option Ref;
  autoApprove : option Ref;
  workflowsEnabled : option bool;
  projenTokenSecret : option string
}.

(** What an object holds besides its project, by runtime class.  The
    fields of [GitHub] are those of the source; of a child, declared
    outside this slice, the body keeps what its constructor was given. *)
Inductive Body :=
| GitHubBody (fields : GitHubFields)
| MergifyBody (github : Ref) (options : option MergifyOptions)
| PullRequestLintBody (github : Ref) (options : option PullRequestLintOptions)
| AutoApproveBody (github : Ref) (options : option AutoApproveOptions)
| StaleBody (github : Ref) (options : option StaleOptions)
| GithubWorkflowBody (github : Ref) (name : string)
| PullRequestTemplateBody (github : Ref) (lines : list string)
| DependabotBody (github : Ref) (options : option DependabotOptions)
| OtherBody (className : string).

(** The runtime classes [instanceof] tells apart.  An object of a
    subclass counts as one of its base class: [GithubWorkflowClass] stands
    for [GithubWorkflow] and whatever extends it. *)
Inductive Class :=
| GitHubClass
| MergifyClass
| PullRequestLintClass
| AutoApproveClass
| StaleClass
| GithubWorkflowClass
| PullRequestTemplateClass
| DependabotClass
| OtherClass (className : string).

#[global] Instance Class_eq_dec : EqDecision Class.
Proof. solve_decision. Defined.

Definition classOf (b : Body) : Class :=
  match b with
  | GitHubBody _ => GitHubClass
  | MergifyBody _ _ => MergifyClass
  | PullRequestLintBody _ _ => PullRequestLintClass
  | AutoApproveBody _ _ => AutoApproveClass
  | StaleBody _ _ => StaleClass
  | GithubWorkflowBody _ _ => GithubWorkflowClass
  | PullRequestTemplateBody _ _ => PullRequestTemplateClass
  | DependabotBody _ _ => DependabotClass
  | OtherBody c => OtherClass c
  end.

(** The state of a component object: every component records the project
    it was constructed on. *)
Record ComponentState := mkComponent { project : Project; body : Body }.

Record Heap := mkHeap {
  objects : list ComponentState;
  arrays : list (list Ref)
}.

(** The contents of the array at address [a]. *)
Definition elements (h : Heap) (a : nat) : list Ref :=
  default [] (arrays h !! a).

(** [c instanceof C] *)
Definition instanceof (h : Heap) (c : Ref) (C : Class) : bool :=
  match objects h !! c with
  | Some o => bool_decide (classOf (body o) = C)
  | None => false
  end.

(** [w.name] of a workflow: the name its constructor was given. *)
Definition name (h : Heap) (w : Ref) : string :=
  match objects h !! w with
  | Some {| body := GithubWorkflowBody _ n |} => n
  | _ => ""
  end.

(** [c.project] *)
Definition projectOf (h : Heap) (c : Ref) : Project :=
  match objects h !! c with
  | Some o => project o
  | None => mkProject 0
  end.

(** ** Computations over the heap *)

Definition M (A : Type) : Type := Heap -> A * Heap.

Definition ret {A} (a : A) : M A := fun h => (a, h).

Definition bind {A B} (m : M A) (k : A -> M B) : M B :=
  fun h => let (a, h') := m h in k a h'.

Notation "x <- m ;; k" := (bind m (fun x => k))
  (at level 100, m at next level, right associativity).
Notation "m ;;; k" := (bind m (fun _ => k))
  (at level 100, right associativity).

Definition gets {A} (f : Heap -> A) : M A := fun h => (f h, h).

(** [new]: a fresh object at the end of the store. *)
Definition alloc (o : ComponentState) : M Ref :=
  fun h => (length (objects h), mkHeap (objects h ++ [o]) (arrays h)).

(** Assignment to the fields of a [GitHub] object, [this.f = v]. *)
Definition assign (this : Ref) (upd : GitHubFields -> GitHubFields) : M unit :=
  fun h =>
    (tt, mkHeap
           (alter (fun o =>
                     match body o with
                     | GitHubBody f => mkComponent (project o) (GitHubBody (upd f))
                     | _ => o
                     end) this (objects h))
           (arrays h)).

(** ** Arrays *)

Module Array.

(** [a.push(x)]: in place. *)
Definition push (a : nat) (x : Ref) : M unit :=
  fun h => (tt, mkHeap (objects h) (alter (fun l => l ++ [x]) a (arrays h))).

(** [a.filter(f)]: a new array; [a] is not touched. *)
Definition filter (f : Heap -> Ref -> bool) (a : nat) : M nat :=
  fun h =>
    (length (arrays h),
     mkHeap (objects h) (arrays h ++ [List.filter (f h) (elements h a)])).

(** [a.find(f)] *)
Definition find (f : Heap -> Ref -> bool) (a : nat) : M (option Ref) :=
  gets (fun h => List.find (f h) (elements h a)).

(** Stable insertion: [x] came before every element of [l], so it goes
    in front of the first [y] that it does not follow ([cmp x y <= 0]). *)
Fixpoint insert (cmp : Ref -> Ref -> Z) (x : Ref) (l : list Ref) : list Ref :=
  match l with
  | [] => [x]
  | y :: l' => if (cmp x y <=? 0)%Z then x :: y :: l' else y :: insert cmp x l'
  end.

(** The elements of [l] in ascending order of [cmp], equal ones in the
    order they have in [l]. *)
Fixpoint sorted (cmp : Ref -> Ref -> Z) (l : list Ref) : list Ref :=
  match l with
  | [] => []
  | x :: l' => insert cmp x (sorted cmp l')
  end.

(** [a.sort(cmp)]: sorts [a] in place and returns [a] itself.  The sort
    of the language is stable; for a consistent comparator every stable
    sort gives the same array, here computed by insertion. *)
Definition sort (cmp : Heap -> Ref -> Ref -> Z) (a : nat) : M nat :=
  fun h => (a, mkHeap (objects h) (alter (sorted (cmp h)) a (arrays h))).

End Array.

(** ** Locale-aware comparison

    [String.prototype.localeCompare] belongs to the runtime and depends on
    its locale data.  What the language promises of it is that it is a
    consistent comparator, a total preorder on strings; distinct strings
    may compare as equal. *)
Class Collator := {
  localeCompare : string -> string -> Z;
  localeCompare_refl : forall a, localeCompare a a = 0%Z;
  localeCompare_antisym : forall a b,
    (localeCompare a b < 0 <-> 0 < localeCompare b a)%Z;
  localeCompare_trans : forall a b c,
    (localeCompare a b <= 0 -> localeCompare b c <= 0 -> localeCompare a c <= 0)%Z
}.

(** A collator to compute with: comparison by character codes. *)
Definition ordinalCompare (a b : string) : Z :=
  match String_as_OT.compare a b with
  | Lt => (-1)%Z
  | Eq => 0%Z
  | Gt => 1%Z
  end.

(** ** The component base class and the children *)

Module Component.

(** Modelled from the spec: the constructor of the base class
    [Component] (src/component.ts is outside this slice) records the
    project and registers the new object by appending it to the ordered
    component collection of that project, with no uniqueness check. *)
Definition new (project : Project) (b : Body) : M Ref :=
  this <- alloc (mkComponent project b) ;;
  Array.push (components project) this ;;;
  ret this.

End Component.

(** The constructors of the children ([Mergify], [PullRequestLint],
    [AutoApprove], [Stale], [GithubWorkflow], [PullRequestTemplate],
    [Dependabot]) are outside this slice.  By the spec each takes the
    [GitHub] component and its own options, and constructs one node that
    registers itself into the project of that component. *)
Module Mergify.
(** Modelled from the spec: [new Mergify(github, options)] (src/github/mergify.ts
    is outside this slice) constructs one node and registers it on
    [github.project]. *)
Definition new (github : Ref) (options : option MergifyOptions) : M Ref :=
  project <- gets (fun h => projectOf h github) ;;
  Component.new project (MergifyBody github options).
End Mergify.

Module PullRequestLint.
(** Modelled from the spec: [new PullRequestLint(github, options)]
    (src/github/pull-request-lint.ts is outside this slice) constructs one node and
    registers it on [github.project]. *)
Definition new (github : Ref) (options : option PullRequestLintOptions) : M Ref :=
  project <- gets (fun h => projectOf h github) ;;
  Component.new project (PullRequestLintBody github options).
End PullRequestLint.

Module AutoApprove.
(** Modelled from the spec: [new AutoApprove(github, options)]
    (src/github/auto-approve.ts is outside this slice) constructs one node and
    registers it on [github.project]. *)
Definition new (github : Ref) (options : option AutoApproveOptions) : M Ref :=
  project <- gets (fun h => projectOf h github) ;;
  Component.new project (AutoApproveBody github options).
End AutoApprove.

Module Stale.
(** Modelled from the spec: [new Stale(github, options)]
    (src/github/stale.ts is outside this slice) constructs one node and
    registers it on [github.project]. *)
Definition new (github : Ref) (options : option StaleOptions) : M Ref :=
  project <- gets (fun h => projectOf h github) ;;
  Component.new project (StaleBody github options).
End Stale.

Module GithubWorkflow.
(** Modelled from the spec: [new GithubWorkflow(github, name)]
    (src/github/workflows.ts is outside this slice) constructs one node and
    registers it on [github.project]. *)
Definition new (github : Ref) (name : string) : M Ref :=
  project <- gets (fun h => projectOf h github) ;;
  Component.new project (GithubWorkflowBody github name).
End GithubWorkflow.

Module PullRequestTemplate.
(** Modelled from the spec: [new PullRequestTemplate(github, { lines })]
    (src/github/pr-template.ts is outside this slice) constructs one node and
    registers it on [github.project]. *)
Definition new (github : Ref) (lines : list string) : M Ref :=
  project <- gets (fun h => projectOf h github) ;;
  Component.new project (PullRequestTemplateBody github lines).
End PullRequestTemplate.

Module Dependabot.
(** Modelled from the spec: [new Dependabot(github, options)]
    (src/github/dependabot.ts is outside this slice) constructs one node and
    registers it on [github.project]. *)
Definition new (github : Ref) (options : option DependabotOptions) : M Ref :=
  project <- gets (fun h => projectOf h github) ;;
  Component.new project (DependabotBody github options).
End Dependabot.

(** ** The GitHub component *)

Module GitHub.

(** The fields of an object before its constructor has assigned any. *)
Definition unassigned : GitHubFields := mkGitHubFields None None None None.

Definition set_workflowsEnabled (v : bool) (f : GitHubFields) : GitHubFields :=
  mkGitHubFields (mergify f) (autoApprove f) (Some v) (projenTokenSecret f).

Definition set_projenTokenSecret (v : string) (f : GitHubFields) : GitHubFields :=
  mkGitHubFields (mergify f) (autoApprove f) (workflowsEnabled f) (Some v).

Definition set_mergify (v : Ref) (f : GitHubFields) : GitHubFields :=
  mkGitHubFields (Some v) (autoApprove f) (workflowsEnabled f) (projenTokenSecret f).

Definition set_autoApprove (v : Ref) (f : GitHubFields) : GitHubFields :=
  mkGitHubFields (mergify f) (Some v) (workflowsEnabled f) (projenTokenSecret f).

(** The type guards of [of] and [workflows], and the comparator and
    the predicate handed to [sort] and [find]: closures over the heap. *)
Definition isGitHub (h : Heap) (c : Ref) : bool :=
  instanceof h c GitHubClass.

Definition isWorkflow (h : Heap) (c : Ref) : bool :=
  instanceof h c GithubWorkflowClass.

Definition byName {collator : Collator} (h : Heap) (w1 w2 : Ref) : Z :=
  localeCompare (name h w1) (name h w2).

Definition named (n : string) (h : Heap) (w : Ref) : bool :=
  String.eqb (name h w) n.

(** [GitHub.of(project)] *)
Definition of_ (project : Project) : M (option Ref) :=
  Array.find isGitHub (components project).

(** [new GitHub(project, options)]; the parameter defaults to [{}]. *)
Definition new (project : Project) (options : option GitHubOptions.t) : M Ref :=
  let options := options ?? GitHubOptions.empty in
  this <- Component.new project (GitHubBody unassigned) ;;
  assign this (set_workflowsEnabled
                 (JS.get (GitHubOptions.workflows options) ?? true)) ;;;
  assign this (set_projenTokenSecret
                 (JS.get (GitHubOptions.projenTokenSecret options)
                    ?? "PROJEN_GITHUB_TOKEN")) ;;;
  (if JS.get (GitHubOptions.mergify options) ?? true then
     m <- Mergify.new this (JS.get (GitHubOptions.mergifyOptions options)) ;;
     assign this (set_mergify m)
   else ret tt) ;;;
  (if JS.get (GitHubOptions.pullRequestLint options) ?? true then
     PullRequestLint.new this
       (JS.get (GitHubOptions.pullRequestLintOptions options)) ;;;
     ret tt
   else ret tt) ;;;
  (if JS.ToBoolean (JS.of_object (JS.get (GitHubOptions.autoApproveOptions options))) then
     a <- AutoApprove.new this
            (JS.get (GitHubOptions.autoApproveOptions options)) ;;
     assign this (set_autoApprove a)
   else ret tt) ;;;
  (if JS.get (GitHubOptions.stale options) ?? true then
     Stale.new this (JS.get (GitHubOptions.staleOptions options)) ;;;
     ret tt
   else ret tt) ;;;
  ret this.

Section Registry.
Context {collator : Collator}.

(** [get workflows()] *)
Definition workflows (this : Ref) : M nat :=
  project <- gets (fun h => projectOf h this) ;;
  ws <- Array.filter isWorkflow (components project) ;;
  Array.sort byName ws.

(** [tryFindWorkflow(name)] *)
Definition tryFindWorkflow (this : Ref) (n : string) : M (option Ref) :=
  ws <- workflows this ;;
  Array.find (named n) ws.

End Registry.

(** [addWorkflow(name)] *)
Definition addWorkflow (this : Ref) (n : string) : M Ref :=
  workflow <- GithubWorkflow.new this n ;;
  ret workflow.

(** [addPullRequestTemplate(...content)] *)
Definition addPullRequestTemplate (this : Ref) (content : list string) : M Ref :=
  PullRequestTemplate.new this content.

(** [addDependabot(options?)] *)
Definition addDependabot (this : Ref) (options : option DependabotOptions) : M Ref :=
  Dependabot.new this options.

End GitHub.

(** ** Well-formed heaps and observations *)

(** The component array of [p] has been allocated. *)
Definition valid (h : Heap) (p : Project) : Prop :=
  (components p < length (arrays h))%nat.

(** Every component registered on [p] is an object of the heap. *)
Definition closed (h : Heap) (p : Project) : Prop :=
  Forall (fun c => (c < length (objects h))%nat) (elements h (components p)).

(** The fields of the [GitHub] object at [g], if there is one. *)
Definition fieldsOf (h : Heap) (g : Ref) : option GitHubFields :=
  match objects h !! g with
  | Some {| body := GitHubBody f |} => Some f
  | _ => None
  end.

(** The body of the object at [c]. *)
Definition bodyOf (h : Heap) (c : Ref) : option Body :=
  body <$> objects h !! c.

(** How many components of class [C] are registered on [p], and how many
    objects of class [C] have been constructed at all. *)
Definition registered (h : Heap) (p : Project) (C : Class) : nat :=
  length (List.filter (fun c => instanceof h c C) (elements h (components p))).

Definition constructed (h : Heap) (C : Class) : nat :=
  length (List.filter (fun o => bool_decide (classOf (body o) = C)) (objects h)).

(** ** Clients of the component *)

(** The calls this slice offers, and a client making some of them. *)
Inductive Call :=
| CallOf (p : Project)
| CallNew (p : Project) (options : option GitHubOptions.t)
| CallWorkflows (this : Ref)
| CallTryFindWorkflow (this : Ref) (n : string)
| CallAddWorkflow (this : Ref) (n : string)
| CallAddPullRequestTemplate (this : Ref) (content : list string)
| CallAddDependabot (this : Ref) (options : option DependabotOptions).

(** Making one call, and a list of calls in order; results are dropped. *)
Definition perform {collator : Collator} (c : Call) : M unit :=
  match c with
  | CallOf p => GitHub.of_ p ;;; ret tt
  | CallNew p options => GitHub.new p options ;;; ret tt
  | CallWorkflows this => GitHub.workflows this ;;; ret tt
  | CallTryFindWorkflow this n => GitHub.tryFindWorkflow this n ;;; ret tt
  | CallAddWorkflow this n => GitHub.addWorkflow this n ;;; ret tt
  | CallAddPullRequestTemplate this content =>
      GitHub.addPullRequestTemplate this content ;;; ret tt
  | CallAddDependabot this options => GitHub.addDependabot this options ;;; ret tt
  end.

Fixpoint performAll {collator : Collator} (cs : list Call) : M unit :=
  match cs with
  | [] => ret tt
  | c :: cs' => perform c ;;; performAll cs'
  end.

(** The calls that only ask. *)
Definition isQuery (c : Call) : bool :=
  match c with
  | CallOf _ | CallWorkflows _ | CallTryFindWorkflow _ _ => true
  | _ => false
  end.

(** A switch counted: 1 when on, 0 when off. *)
Definition one (b : bool) : nat := if b then 1%nat else 0%nat.

(** ** Sample data *)

(** A heap with one project, nothing registered on it yet, and the heap
    after [new GitHub(project)] on it: the component at address 0, then
    its [Mergify], [PullRequestLint] and [Stale] children. *)
Definition emptyHeap : Heap := mkHeap [] [[]].
Definition sampleProject : Project := mkProject 0.
Definition sampleHeap : Heap := snd (GitHub.new sampleProject None emptyHeap).

(** Options that switch [mergify] off, though [mergifyOptions] is given,
    name a token secret, and give [autoApproveOptions] as the empty
    object. *)
Definition sampleOptions : GitHubOptions.t :=
  GitHubOptions.mk
    (JS.Present (Some false)) (JS.Present (Some [("rules", JS.Obj [])]))
    JS.Absent JS.Absent JS.Absent
    (JS.Present (Some "MY_TOKEN"))
    (JS.Present (Some [])) JS.Absent JS.Absent JS.Absent.

(** An options literal that has the key [autoApproveOptions], holding
    [undefined]. *)
Definition undefinedAutoApprove : GitHubOptions.t :=
  GitHubOptions.mk JS.Absent JS.Absent JS.Absent JS.Absent JS.Absent
    JS.Absent (JS.Present None) JS.Absent JS.Absent JS.Absent.

(** A heap to query: the sample component with workflows "b" and "a". *)
Definition twoWorkflows : Heap :=
  snd ((GitHub.addWorkflow 0%nat "b" ;;; GitHub.addWorkflow 0%nat "a") sampleHeap).

(** ** Descriptions of heaps, used in the proofs *)

(** [h'] has every object of [h], unchanged, and maybe more. *)
Definition extends (h h' : Heap) : Prop :=
  exists l, objects h' = objects h ++ l.

(** The heap after [Component.new p b]. *)
Definition added (h : Heap) (p : Project) (b : Body) : Heap :=
  snd (Component.new p b h).

(** The sequence [workflows] yields on [h]: the workflows of the project
    of [this], sorted by name. *)
Definition sortedWorkflows {collator : Collator} (h : Heap) (this : Ref) : list Ref :=
  Array.sorted (GitHub.byName h)
    (List.filter (GitHub.isWorkflow h)
       (elements h (components (projectOf h this)))).

(** The heap while [new GitHub(project, options)] runs on a heap with
    objects [os] and arrays [arrs]: the component itself at address
    [length os] with fields [f], then the children built so far, all of
    them pushed onto the component array of the project. *)
Definition constructing (os : list ComponentState) (arrs : list (list Ref))
    (p : Project) (f : GitHubFields) (cs : list Body) : Heap :=
  mkHeap (os ++ mkComponent p (GitHubBody f) :: map (mkComponent p) cs)
         (alter (fun l => l ++ seq (length os) (S (length cs)))
                (components p) arrs).

(** The switches the constructor tests. *)
Definition wantsMergify (o : GitHubOptions.t) : bool :=
  JS.get (GitHubOptions.mergify o) ?? true.
Definition wantsPullRequestLint (o : GitHubOptions.t) : bool :=
  JS.get (GitHubOptions.pullRequestLint o) ?? true.
Definition wantsAutoApprove (o : GitHubOptions.t) : bool :=
  JS.ToBoolean (JS.of_object (JS.get (GitHubOptions.autoApproveOptions o))).
Definition wantsStale (o : GitHubOptions.t) : bool :=
  JS.get (GitHubOptions.stale o) ?? true.

(** The children a finished constructor has built, in order, for a
    component at address [this]. *)
Definition builtChildren (this : Ref) (o : GitHubOptions.t) : list Body :=
  (if wantsMergify o
   then [MergifyBody this (JS.get (GitHubOptions.mergifyOptions o))] else []) ++
  (if wantsPullRequestLint o
   then [PullRequestLintBody this (JS.get (GitHubOptions.pullRequestLintOptions o))]
   else []) ++
  (if wantsAutoApprove o
   then [AutoApproveBody this (JS.get (GitHubOptions.autoApproveOptions o))]
   else []) ++
  (if wantsStale o
   then [StaleBody this (JS.get (GitHubOptions.staleOptions o))] else []).

(** The fields a finished constructor has assigned. *)
Definition builtFields (this : Ref) (o : GitHubOptions.t) : GitHubFields :=
  mkGitHubFields
    (if wantsMergify o then Some (S this) else None)
    (if wantsAutoApprove o
     then Some (S this + (if wantsMergify o then 1 else 0)
                       + (if wantsPullRequestLint o then 1 else 0))%nat
     else None)
    (Some (JS.get (GitHubOptions.workflows o) ?? true))
    (Some (JS.get (GitHubOptions.projenTokenSecret o) ?? "PROJEN_GITHUB_TOKEN")).

(** The classes of the objects the constructor adds, in order. *)
Definition builtClasses (o : GitHubOptions.t) : list Class :=
  GitHubClass ::
  (if wantsMergify o then [MergifyClass] else []) ++
  (if wantsPullRequestLint o then [PullRequestLintClass] else []) ++
  (if wantsAutoApprove o then [AutoApproveClass] else []) ++
  (if wantsStale o then [StaleClass] else []).

(** How many of the objects the constructor adds are of class [C]. *)
Definition builtOf (C : Class) (o : GitHubOptions.t) : nat :=
  length (List.filter (fun c => bool_decide (c = C)) (builtClasses o)).

(** ** Descriptions used by the further properties *)

(** [h'] grew out of [h] as seen from project [p]: the objects of [h] are
    all there, unchanged; the component array of [p] is still allocated
    and has only gained, at its end, objects that are new in [h'], each
    once. *)
Definition grows (p : Project) (h h' : Heap) : Prop :=
  extends h h' /\
  valid h' p /\
  exists l,
    elements h' (components p) = elements h (components p) ++ l /\
    Forall (fun c => (length (objects h) <= c < length (objects h'))%nat) l /\
    NoDup l.

(** The project a call registers on, if it registers at all. *)
Definition target (h : Heap) (c : Call) : option Project :=
  match c with
  | CallNew p _ => Some p
  | CallAddWorkflow this _
  | CallAddPullRequestTemplate this _
  | CallAddDependabot this _ => Some (projectOf h this)
  | CallOf _ | CallWorkflows _ | CallTryFindWorkflow _ _ => None
  end.

(** Two options objects from which every property the constructor reads
    reads the same. *)
Definition sameReads (o1 o2 : GitHubOptions.t) : Prop :=
  JS.get (GitHubOptions.mergify o1) = JS.get (GitHubOptions.mergify o2) /\
  JS.get (GitHubOptions.mergifyOptions o1) = JS.get (GitHubOptions.mergifyOptions o2) /\
  JS.get (GitHubOptions.workflows o1) = JS.get (GitHubOptions.workflows o2) /\
  JS.get (GitHubOptions.pullRequestLint o1) = JS.get (GitHubOptions.pullRequestLint o2) /\
  JS.get (GitHubOptions.pullRequestLintOptions o1) =
    JS.get (GitHubOptions.pullRequestLintOptions o2) /\
  JS.get (GitHubOptions.projenTokenSecret o1) =
    JS.get (GitHubOptions.projenTokenSecret o2) /\
  JS.get (GitHubOptions.autoApproveOptions o1) =
    JS.get (GitHubOptions.autoApproveOptions o2) /\
  JS.get (GitHubOptions.staleOptions o1) = JS.get (GitHubOptions.staleOptions o2) /\
  JS.get (GitHubOptions.stale o1) = JS.get (GitHubOptions.stale o2).

(** Whether the name of [w] compares equal to [n]. *)
Definition ties {collator : Collator} (n : string) (h : Heap) (w : Ref) : bool :=
  (localeCompare (name h w) n =? 0)%Z.

(** A second project, with a component array of its own, beside the
    sample one. *)
Definition twoProjects : Heap :=
  mkHeap (objects twoWorkflows) (arrays twoWorkflows ++ [[]]).
Definition otherProject : Project := mkProject 1.

(** Options with every key the constructor reads holding [undefined],
    and [autoMergeOptions] given. *)
Definition undefinedOptions : GitHubOptions.t :=
  GitHubOptions.mk (JS.Present None) (JS.Present None) (JS.Present None)
    (JS.Present None) (JS.Present None) (JS.Present None) (JS.Present None)
    (JS.Present (Some [("autoMergeLabel", JS.Str "ship")]))
    (JS.Present None) (JS.Present None).

(** The heap [twoWorkflows] with the two workflows registered the other
    way round. *)
Definition twoWorkflowsSwapped : Heap :=
  mkHeap (objects twoWorkflows) [[0; 1; 2; 3; 5; 4]%nat].


(** ** Descriptions used by the revised statements *)

(** The runtime class of the object at [c], if there is one. *)
Definition classAt (h : Heap) (c : Ref) : option Class :=
  classOf <$> bodyOf h c.

(** A project on which one component of another class, an ignore file,
    is registered, and no [GitHub]. *)
Definition ignoreFileHeap : Heap :=
  mkHeap [mkComponent sampleProject (OtherBody "IgnoreFile")] [[0%nat]].

(** ** Calls that may throw *)

(** The outcome of a call that may throw: it returns a value and leaves
    a heap, or it throws and the operation is aborted. *)
Inductive Outcome (A : Type) :=
| Returned (a : A) (h : Heap)
| Thrown.
Arguments Returned {A} a h.
Arguments Thrown {A}.

Module Throwing.

(** Modelled from the spec: a child constructor may fail, and its failure
    propagates unmodified; whether it fails is decided by the code of the
    child, outside this slice, and is the parameter [rejects] here, which
    sees the heap and the node about to be built.  When the constructor
    does not fail it builds and registers the node as [Component.new]
    does. *)
Definition construct (rejects : Heap -> Body -> bool)
    (github : Ref) (b : Body) : Heap -> Outcome Ref :=
  fun h =>
    if rejects h b then Thrown
    else let (c, h') := Component.new (projectOf h github) b h in
         Returned c h'.

(** [addWorkflow(name)], an exception of the constructor let through. *)
Definition addWorkflow (rejects : Heap -> Body -> bool)
    (this : Ref) (n : string) : Heap -> Outcome Ref :=
  fun h =>
    match construct rejects this (GithubWorkflowBody this n) h with
    | Returned workflow h' => Returned workflow h'
    | Thrown => Thrown
    end.

(** [addDependabot(options?)], an exception of the constructor let
    through. *)
Definition addDependabot (rejects : Heap -> Body -> bool)
    (this : Ref) (options : option DependabotOptions) : Heap -> Outcome Ref :=
  construct rejects this (DependabotBody this options).

End Throwing.


Definition rejectsTakenName : Heap -> Body -> bool :=
  fun h b =>
    match b with
    | GithubWorkflowBody _ n =>
        existsb (fun o => match body o with
                          | GithubWorkflowBody _ m => String.eqb m n
                          | _ => false
                          end) (objects h)
    | _ => false
    end.




(** * Properties *)

(** ** The ordinal collator is a collator *)

Lemma ordinalCompare_spec a b :
  (ordinalCompare a b = 0%Z /\ a = b) \/
  (ordinalCompare a b = (-1)%Z /\ String_as_OT.lt a b) \/
  (ordinalCompare a b = 1%Z /\ String_as_OT.lt b a).
Proof.
  unfold ordinalCompare.
  destruct (String_as_OT.compare_spec a b); auto.
Qed.

Lemma ordinal_lt_irrefl a : ~ String_as_OT.lt a a.
Proof. apply (@StrictOrder_Irreflexive _ _ String_as_OT.lt_strorder). Qed.

Lemma ordinal_lt_trans a b c :
  String_as_OT.lt a b -> String_as_OT.lt b c -> String_as_OT.lt a c.
Proof. apply (@StrictOrder_Transitive _ _ String_as_OT.lt_strorder). Qed.

Lemma ordinalCompare_refl a : ordinalCompare a a = 0%Z.
Proof.
  destruct (ordinalCompare_spec a a) as [[? _]|[[_ H]|[_ H]]]; auto;
    now apply ordinal_lt_irrefl in H.
Qed.

Lemma ordinalCompare_antisym a b :
  (ordinalCompare a b < 0 <-> 0 < ordinalCompare b a)%Z.
Proof.
  destruct (ordinalCompare_spec a b) as [[E H]|[[E H]|[E H]]];
    destruct (ordinalCompare_spec b a) as [[E' H']|[[E' H']|[E' H']]];
    subst; try lia;
    try (exfalso; eapply ordinal_lt_irrefl; eassumption);
    exfalso; eapply ordinal_lt_irrefl, ordinal_lt_trans; eassumption.
Qed.

Lemma ordinalCompare_le a b :
  (ordinalCompare a b <= 0)%Z <-> a = b \/ String_as_OT.lt a b.
Proof.
  destruct (ordinalCompare_spec a b) as [[E H]|[[E H]|[E H]]];
    rewrite E; split; auto; try lia.
  intros [->|H']; exfalso.
  - eapply ordinal_lt_irrefl; eassumption.
  - eapply ordinal_lt_irrefl, ordinal_lt_trans; eassumption.
Qed.

Lemma ordinalCompare_trans a b c :
  (ordinalCompare a b <= 0 -> ordinalCompare b c <= 0 -> ordinalCompare a c <= 0)%Z.
Proof.
  rewrite !ordinalCompare_le.
  intros [->|Hab] [->|Hbc]; auto.
  right. eapply ordinal_lt_trans; eauto.
Qed.

Lemma ordinalCompare_eq a b : ordinalCompare a b = 0%Z -> a = b.
Proof.
  destruct (ordinalCompare_spec a b) as [[E H]|[[E H]|[E H]]]; auto; lia.
Qed.

#[global] Instance ordinalCollator : Collator := {|
  localeCompare := ordinalCompare;
  localeCompare_refl := ordinalCompare_refl;
  localeCompare_antisym := ordinalCompare_antisym;
  localeCompare_trans := ordinalCompare_trans
|}.


(** ** Stable insertion sort *)

Section Sorting.

Variable cmp : Ref -> Ref -> Z.

Lemma insert_Permutation x l : Permutation (Array.insert cmp x l) (x :: l).
Proof.
  induction l as [|y l IH]; simpl; [reflexivity|].
  destruct (cmp x y <=? 0)%Z; [reflexivity|].
  rewrite IH. apply perm_swap.
Qed.

Lemma sorted_Permutation l : Permutation (Array.sorted cmp l) l.
Proof.
  induction l as [|x l IH]; simpl; [reflexivity|].
  rewrite insert_Permutation. now constructor.
Qed.



Hypothesis cmp_total : forall x y, (cmp x y <= 0 \/ cmp y x <= 0)%Z.
Hypothesis cmp_trans : forall x y z,
  (cmp x y <= 0 -> cmp y z <= 0 -> cmp x z <= 0)%Z.

Lemma insert_StronglySorted x l :
  StronglySorted (fun a b => cmp a b <= 0)%Z l ->
  StronglySorted (fun a b => cmp a b <= 0)%Z (Array.insert cmp x l).
Proof.
  induction 1 as [|y l Hl IH Hy]; simpl.
  - repeat constructor.
  - destruct (cmp x y <=? 0)%Z eqn:E.
    + apply Z.leb_le in E. constructor; [now constructor|].
      constructor; [assumption|].
      eapply Forall_impl; [exact Hy|]. simpl. eauto.
    + apply Z.leb_gt in E. constructor; [assumption|].
      rewrite (insert_Permutation x l). constructor; [|assumption].
      destruct (cmp_total x y); [lia|assumption].
Qed.

Lemma sorted_StronglySorted l :
  StronglySorted (fun a b => cmp a b <= 0)%Z (Array.sorted cmp l).
Proof.
  induction l; simpl; [constructor|now apply insert_StronglySorted].
Qed.

End Sorting.

(** ** What each operation does to the heap *)

Lemma elements_snoc (h : Heap) os l :
  elements (mkHeap os (arrays h ++ [l])) (length (arrays h)) = l.
Proof.
  unfold elements. simpl. now rewrite list_lookup_middle.
Qed.

Lemma elements_old (h : Heap) os l a :
  (a < length (arrays h))%nat ->
  elements (mkHeap os (arrays h ++ l)) a = elements h a.
Proof.
  intros Ha. unfold elements. simpl. now rewrite lookup_app_l.
Qed.

Lemma elements_push (h : Heap) os a f :
  (a < length (arrays h))%nat ->
  elements (mkHeap os (alter f a (arrays h))) a = f (elements h a).
Proof.
  intros Ha. unfold elements. simpl. rewrite list_lookup_alter_eq.
  destruct (lookup_lt_is_Some_2 _ _ Ha) as [l ->]. reflexivity.
Qed.

Lemma elements_push_ne (h : Heap) os a b f :
  a <> b ->
  elements (mkHeap os (alter f a (arrays h))) b = elements h b.
Proof.
  intros Hab. unfold elements. simpl. now rewrite list_lookup_alter_ne.
Qed.

Section Runs.

Context {collator : Collator}.

Lemma of_run p h :
  GitHub.of_ p h =
  (List.find (GitHub.isGitHub h) (elements h (components p)), h).
Proof. reflexivity. Qed.

Lemma workflows_run this h :
  GitHub.workflows this h =
  (length (arrays h),
   mkHeap (objects h) (arrays h ++ [sortedWorkflows h this])).
Proof.
  unfold GitHub.workflows, bind, gets, Array.filter, Array.sort. simpl.
  f_equal. f_equal.
  rewrite alter_app_r_alt by lia. now rewrite Nat.sub_diag.
Qed.

Lemma tryFindWorkflow_run this n h :
  GitHub.tryFindWorkflow this n h =
  (List.find (GitHub.named n h) (sortedWorkflows h this),
   mkHeap (objects h) (arrays h ++ [sortedWorkflows h this])).
Proof.
  unfold GitHub.tryFindWorkflow, bind. rewrite workflows_run.
  unfold Array.find, gets. now rewrite elements_snoc.
Qed.

End Runs.

Lemma Component_new_run p b h :
  Component.new p b h =
  (length (objects h),
   mkHeap (objects h ++ [mkComponent p b])
          (alter (fun l => l ++ [length (objects h)]) (components p) (arrays h))).
Proof. reflexivity. Qed.

Lemma addWorkflow_run this n h :
  GitHub.addWorkflow this n h =
  Component.new (projectOf h this) (GithubWorkflowBody this n) h.
Proof. reflexivity. Qed.

Lemma addDependabot_run this o h :
  GitHub.addDependabot this o h =
  Component.new (projectOf h this) (DependabotBody this o) h.
Proof. reflexivity. Qed.

Lemma addPullRequestTemplate_run this c h :
  GitHub.addPullRequestTemplate this c h =
  Component.new (projectOf h this) (PullRequestTemplateBody this c) h.
Proof. reflexivity. Qed.

(** ** The constructor, step by step *)

Lemma constructing_start p h :
  Component.new p (GitHubBody GitHub.unassigned) h =
  (length (objects h),
   constructing (objects h) (arrays h) p GitHub.unassigned []).
Proof. reflexivity. Qed.

Lemma constructing_assign os arrs p f cs upd :
  assign (length os) upd (constructing os arrs p f cs) =
  (tt, constructing os arrs p (upd f) cs).
Proof.
  unfold assign, constructing. simpl. f_equal. f_equal.
  rewrite alter_app_r_alt by lia. now rewrite Nat.sub_diag.
Qed.

Lemma constructing_projectOf os arrs p f cs :
  projectOf (constructing os arrs p f cs) (length os) = p.
Proof.
  unfold projectOf, constructing. simpl. now rewrite list_lookup_middle.
Qed.

Lemma constructing_child os arrs p f cs b :
  Component.new p b (constructing os arrs p f cs) =
  ((length os + S (length cs))%nat, constructing os arrs p f (cs ++ [b])).
Proof.
  rewrite Component_new_run. unfold constructing. simpl.
  rewrite length_app. simpl. rewrite !List.length_map. f_equal. f_equal.
  - rewrite map_app, <- app_assoc. reflexivity.
  - rewrite list_alter_alter_eq. apply list_alter_ext; [|reflexivity].
    intros l _. simpl. rewrite length_app. simpl.
    rewrite <- app_assoc. f_equal. simpl. f_equal.
    rewrite seq_app. simpl. do 2 f_equal. lia.
Qed.

Ltac run_constructor :=
  repeat first
    [ rewrite constructing_start
    | rewrite constructing_assign
    | rewrite constructing_projectOf
    | rewrite constructing_child
    | progress (unfold bind at 1; cbv beta iota)
    | progress (unfold Mergify.new, PullRequestLint.new, AutoApprove.new,
                Stale.new, gets, ret; cbv beta iota) ].

Lemma new_run p options h :
  let o := options ?? GitHubOptions.empty in
  GitHub.new p options h =
  (length (objects h),
   constructing (objects h) (arrays h) p
     (builtFields (length (objects h)) o)
     (builtChildren (length (objects h)) o)).
Proof.
  intros o. unfold GitHub.new. fold o.
  unfold builtFields, builtChildren,
    wantsMergify, wantsPullRequestLint, wantsAutoApprove, wantsStale.
  destruct (JS.get (GitHubOptions.mergify o) ?? true);
    destruct (JS.get (GitHubOptions.pullRequestLint o) ?? true);
    destruct (JS.ToBoolean _);
    destruct (JS.get (GitHubOptions.stale o) ?? true);
    run_constructor; simpl;
    rewrite ?Nat.add_0_r, ?Nat.add_1_r, <- ?plus_n_Sm, ?Nat.add_0_r;
    reflexivity.
Qed.

(** ** Heaps that only grow *)

Lemma extends_refl h : extends h h.
Proof. exists []. now rewrite app_nil_r. Qed.

Lemma extends_trans h1 h2 h3 : extends h1 h2 -> extends h2 h3 -> extends h1 h3.
Proof.
  intros [l1 E1] [l2 E2]. exists (l1 ++ l2). now rewrite E2, E1, app_assoc.
Qed.

Lemma extends_lookup h h' c :
  extends h h' -> (c < length (objects h))%nat ->
  objects h' !! c = objects h !! c.
Proof. intros [l ->] Hc. now apply lookup_app_l. Qed.

Lemma extends_instanceof h h' c C :
  extends h h' -> (c < length (objects h))%nat ->
  instanceof h' c C = instanceof h c C.
Proof. intros E Hc. unfold instanceof. now rewrite (extends_lookup h h'). Qed.

Lemma extends_name h h' c :
  extends h h' -> (c < length (objects h))%nat -> name h' c = name h c.
Proof. intros E Hc. unfold name. now rewrite (extends_lookup h h'). Qed.

Lemma extends_projectOf h h' c :
  extends h h' -> (c < length (objects h))%nat ->
  projectOf h' c = projectOf h c.
Proof. intros E Hc. unfold projectOf. now rewrite (extends_lookup h h'). Qed.

Lemma extends_fieldsOf h h' c :
  extends h h' -> (c < length (objects h))%nat ->
  fieldsOf h' c = fieldsOf h c.
Proof. intros E Hc. unfold fieldsOf. now rewrite (extends_lookup h h'). Qed.

Lemma extends_filter h h' C l :
  extends h h' -> Forall (fun c => (c < length (objects h))%nat) l ->
  List.filter (fun c => instanceof h' c C) l =
  List.filter (fun c => instanceof h c C) l.
Proof.
  intros E. induction 1 as [|c l Hc _ IH]; simpl; [reflexivity|].
  now rewrite IH, (extends_instanceof h h').
Qed.

Lemma instanceof_allocated h c C :
  instanceof h c C = true -> (c < length (objects h))%nat.
Proof.
  unfold instanceof. destruct (objects h !! c) eqn:E; [|discriminate].
  intros _. eapply lookup_lt_Some; eauto.
Qed.

Lemma Component_new_extends p b h : extends h (snd (Component.new p b h)).
Proof. rewrite Component_new_run. simpl. now exists [mkComponent p b]. Qed.

(** ** Reading the heap of a constructor *)

Lemma constructing_extends os arrs p f cs :
  extends (mkHeap os arrs) (constructing os arrs p f cs).
Proof. unfold constructing. eexists. reflexivity. Qed.

Lemma constructing_this os arrs p f cs :
  objects (constructing os arrs p f cs) !! length os =
  Some (mkComponent p (GitHubBody f)).
Proof. unfold constructing. simpl. now rewrite list_lookup_middle. Qed.

Lemma constructing_nth_child os arrs p f cs k :
  objects (constructing os arrs p f cs) !! (length os + S k)%nat =
  mkComponent p <$> cs !! k.
Proof.
  unfold constructing. simpl.
  rewrite lookup_app_r by lia.
  replace (length os + S k - length os)%nat with (S k) by lia. simpl.
  now rewrite list_lookup_fmap.
Qed.

Lemma constructing_elements os arrs p f cs :
  (components p < length arrs)%nat ->
  elements (constructing os arrs p f cs) (components p) =
  elements (mkHeap os arrs) (components p) ++ seq (length os) (S (length cs)).
Proof.
  intros Hp. unfold constructing.
  now rewrite (elements_push (mkHeap os arrs)).
Qed.

Lemma constructing_elements_ne os arrs p f cs a :
  a <> components p ->
  elements (constructing os arrs p f cs) a = elements (mkHeap os arrs) a.
Proof.
  intros Hp. unfold constructing.
  now rewrite (elements_push_ne (mkHeap os arrs)).
Qed.

(** ** Registering one more component *)

Lemma added_extends h p b : extends h (added h p b).
Proof. apply Component_new_extends. Qed.

Lemma added_length h p b :
  length (objects (added h p b)) = S (length (objects h)).
Proof. unfold added. simpl. rewrite length_app. simpl. lia. Qed.

Lemma added_lookup_new h p b :
  objects (added h p b) !! length (objects h) = Some (mkComponent p b).
Proof.
  unfold added. simpl.
  rewrite lookup_app_r by lia. now rewrite Nat.sub_diag.
Qed.

Lemma added_valid h p b q : valid h q -> valid (added h p b) q.
Proof. unfold valid, added. simpl. now rewrite length_alter. Qed.

Lemma added_elements h p b :
  valid h p ->
  elements (added h p b) (components p) =
  elements h (components p) ++ [length (objects h)].
Proof. intros Hp. unfold added. simpl. now rewrite (elements_push h). Qed.

Lemma added_elements_ne h p b a :
  a <> components p -> elements (added h p b) a = elements h a.
Proof. intros Hp. unfold added. simpl. now rewrite (elements_push_ne h). Qed.

Lemma added_closed h p b : valid h p -> closed h p -> closed (added h p b) p.
Proof.
  intros Hv Hc. unfold closed. rewrite added_elements, added_length by assumption.
  apply Forall_app. split.
  - eapply Forall_impl; [exact Hc|]. simpl. lia.
  - repeat constructor.
Qed.

Lemma added_name h p g n :
  name (added h p (GithubWorkflowBody g n)) (length (objects h)) = n.
Proof. unfold name. now rewrite added_lookup_new. Qed.

Lemma added_instanceof h p b :
  instanceof (added h p b) (length (objects h)) (classOf b) = true.
Proof.
  unfold instanceof. rewrite added_lookup_new. simpl.
  now apply bool_decide_eq_true.
Qed.

Lemma isGitHub_allocated h g :
  GitHub.isGitHub h g = true -> (g < length (objects h))%nat.
Proof. apply instanceof_allocated. Qed.

Lemma addWorkflow_added this n h :
  GitHub.addWorkflow this n h =
  (length (objects h), added h (projectOf h this) (GithubWorkflowBody this n)).
Proof. reflexivity. Qed.

Section Comparator.
Context {collator : Collator}.

Lemma localeCompare_total a b :
  (localeCompare a b <= 0 \/ localeCompare b a <= 0)%Z.
Proof.
  destruct (Z_le_gt_dec (localeCompare a b) 0) as [|H]; [now left|right].
  assert (localeCompare b a < 0)%Z by (apply localeCompare_antisym; lia).
  lia.
Qed.

Lemma localeCompare_sym a b :
  localeCompare a b = 0%Z -> localeCompare b a = 0%Z.
Proof.
  intros E.
  pose proof (localeCompare_antisym a b).
  pose proof (localeCompare_antisym b a). lia.
Qed.

Lemma byName_total h x y :
  (GitHub.byName h x y <= 0 \/ GitHub.byName h y x <= 0)%Z.
Proof. apply localeCompare_total. Qed.

Lemma byName_trans h x y z :
  (GitHub.byName h x y <= 0 -> GitHub.byName h y z <= 0 ->
   GitHub.byName h x z <= 0)%Z.
Proof. apply localeCompare_trans. Qed.

Lemma sortedWorkflows_Permutation h this :
  Permutation (sortedWorkflows h this)
    (List.filter (GitHub.isWorkflow h)
       (elements h (components (projectOf h this)))).
Proof. apply sorted_Permutation. Qed.

Lemma sortedWorkflows_StronglySorted h this :
  StronglySorted (fun w1 w2 => (GitHub.byName h w1 w2 <= 0)%Z)
    (sortedWorkflows h this).
Proof.
  apply sorted_StronglySorted; [apply byName_total|apply byName_trans].
Qed.

End Comparator.

(** ** Theorems of the specification *)

(** C1. [workflows] returns exactly the workflow-typed components
    registered on the project of the component (a permutation of the
    filtered collection), in ascending order of their names under the
    locale-aware comparison, whatever the order of registration.  On a
    project with no workflow yet, adding "b", "a", "c" in that order and
    reading [workflows] yields the names "a", "b", "c", for every collator
    that puts "a" before "b" before "c". *)
Theorem workflows_sorted_by_name (collator : Collator) (h : Heap) (this : Ref) :
  (let (ws, h') := GitHub.workflows this h in
   Permutation (elements h' ws)
     (List.filter (GitHub.isWorkflow h)
        (elements h (components (projectOf h this)))) /\
   StronglySorted
     (fun w1 w2 => (localeCompare (name h' w1) (name h' w2) <= 0)%Z)
     (elements h' ws)) /\
  (GitHub.isGitHub h this = true ->
   valid h (projectOf h this) -> closed h (projectOf h this) ->
   registered h (projectOf h this) GithubWorkflowClass = 0%nat ->
   (localeCompare "a" "b" < 0)%Z -> (localeCompare "b" "c" < 0)%Z ->
   let (ws, h') :=
     (GitHub.addWorkflow this "b" ;;;
      GitHub.addWorkflow this "a" ;;;
      GitHub.addWorkflow this "c" ;;;
      GitHub.workflows this) h in
   map (name h') (elements h' ws) = ["a"; "b"; "c"]).
Proof.
  split.
  - rewrite workflows_run. cbv beta iota. rewrite elements_snoc. split.
    + apply sortedWorkflows_Permutation.
    + exact (sortedWorkflows_StronglySorted h this).
  - intros Hg Hv Hc Hnone Hab Hbc.
    apply isGitHub_allocated in Hg.
    set (p := projectOf h this) in *.
    unfold bind at 1. rewrite addWorkflow_added. cbv beta iota. fold p.
    set (h1 := added h p (GithubWorkflowBody this "b")).
    assert (E1 : extends h h1) by apply added_extends.
    assert (L1 : length (objects h1) = S (length (objects h))) by apply added_length.
    unfold bind at 1. rewrite addWorkflow_added. cbv beta iota.
    rewrite (extends_projectOf h h1) by assumption. fold p.
    set (h2 := added h1 p (GithubWorkflowBody this "a")).
    assert (E2 : extends h1 h2) by apply added_extends.
    assert (L2 : length (objects h2) = S (length (objects h1))) by apply added_length.
    unfold bind at 1. rewrite addWorkflow_added. cbv beta iota.
    rewrite (extends_projectOf h1 h2), (extends_projectOf h h1) by (assumption || lia).
    fold p.
    set (h3 := added h2 p (GithubWorkflowBody this "c")).
    assert (E3 : extends h2 h3) by apply added_extends.
    rewrite workflows_run. cbv beta iota. rewrite elements_snoc.
    change (name (mkHeap (objects h3) _)) with (name h3).
    unfold sortedWorkflows.
    assert (E13 : extends h1 h3) by (eapply extends_trans; eassumption).
    assert (E03 : extends h h3) by (eapply extends_trans; eassumption).
    rewrite (extends_projectOf h h3) by assumption. fold p.
    assert (V1 : valid h1 p) by now apply added_valid.
    assert (V2 : valid h2 p) by now apply added_valid.
    assert (El : elements h3 (components p) =
                 elements h (components p) ++
                 [length (objects h); length (objects h1); length (objects h2)]).
    { unfold h3. rewrite added_elements by assumption.
      unfold h2 at 1. rewrite added_elements by assumption.
      unfold h1 at 1. rewrite added_elements by assumption.
      now rewrite <- !app_assoc. }
    rewrite El, List.filter_app.
    unfold GitHub.isWorkflow at 1.
    rewrite (extends_filter h h3) by assumption.
    apply length_zero_iff_nil in Hnone. rewrite Hnone.
    cbn [app List.filter].
    assert (Nb : name h3 (length (objects h)) = "b").
    { rewrite (extends_name h1 h3) by (assumption || lia). apply added_name. }
    assert (Na : name h3 (length (objects h1)) = "a").
    { rewrite (extends_name h2 h3) by (assumption || lia). apply added_name. }
    assert (Nc : name h3 (length (objects h2)) = "c") by apply added_name.
    assert (Wb : GitHub.isWorkflow h3 (length (objects h)) = true).
    { unfold GitHub.isWorkflow.
      rewrite (extends_instanceof h1 h3) by (assumption || lia).
      apply (added_instanceof h p (GithubWorkflowBody this "b")). }
    assert (Wa : GitHub.isWorkflow h3 (length (objects h1)) = true).
    { unfold GitHub.isWorkflow.
      rewrite (extends_instanceof h2 h3) by (assumption || lia).
      apply (added_instanceof h1 p (GithubWorkflowBody this "a")). }
    assert (Wc : GitHub.isWorkflow h3 (length (objects h2)) = true).
    { apply (added_instanceof h2 p (GithubWorkflowBody this "c")). }
    rewrite Wb, Wa, Wc. cbn [Array.sorted Array.insert].
    unfold GitHub.byName. rewrite Na, Nc.
    assert (Hac : (localeCompare "a" "c" <= 0)%Z)
      by (apply (localeCompare_trans "a" "b" "c"); lia).
    assert (Hba : (0 < localeCompare "b" "a")%Z)
      by now apply localeCompare_antisym.
    apply Z.leb_le in Hac. rewrite Hac. cbn [Array.insert]. rewrite Na, Nb.
    apply Z.leb_gt in Hba. rewrite Hba, Nc.
    assert (Hbc' : (localeCompare "b" "c" <=? 0)%Z = true) by (apply Z.leb_le; lia).
    rewrite Hbc'. cbn [map].
    now rewrite Na, Nb, Nc.
Qed.

Lemma workflows_sorted_by_name_witness :
  let (ws, h') :=
    (GitHub.addWorkflow 0%nat "b" ;;;
     GitHub.addWorkflow 0%nat "a" ;;;
     GitHub.addWorkflow 0%nat "c" ;;;
     GitHub.workflows 0%nat) sampleHeap in
  map (name h') (elements h' ws) = ["a"; "b"; "c"].
Proof.
  apply (proj2 (workflows_sorted_by_name ordinalCollator sampleHeap 0%nat));
    try (vm_compute; reflexivity).
  unfold closed. vm_compute. repeat constructor.
Defined.

Lemma find_app {A} (f : A -> bool) l1 l2 :
  List.find f (l1 ++ l2) =
  match List.find f l1 with Some x => Some x | None => List.find f l2 end.
Proof.
  induction l1 as [|x l1 IH]; simpl; [reflexivity|].
  now destruct (f x).
Qed.

Lemma find_head_filter {A} (f : A -> bool) l :
  List.find f l = head (List.filter f l).
Proof.
  induction l as [|x l IH]; simpl; [reflexivity|].
  now destruct (f x).
Qed.

Lemma find_none_iff {A} (f : A -> bool) l :
  List.find f l = None <-> Forall (fun x => f x = false) l.
Proof.
  induction l as [|x l IH]; simpl.
  - split; [constructor|reflexivity].
  - destruct (f x) eqn:E.
    + split; [discriminate|]. intros H. inversion H; congruence.
    + rewrite IH. split; [now constructor|]. intros H. now inversion H.
Qed.

Lemma find_first {A} (f : A -> bool) l x :
  List.find f l = Some x ->
  f x = true /\
  exists l1 l2, l = l1 ++ x :: l2 /\ Forall (fun y => f y = false) l1.
Proof.
  induction l as [|y l IH]; simpl; [discriminate|].
  destruct (f y) eqn:E.
  - intros [= ->]. split; [assumption|]. now exists [], l.
  - intros H. destruct (IH H) as (Hx & l1 & l2 & -> & Hl1).
    split; [assumption|]. exists (y :: l1), l2. split; [reflexivity|].
    now constructor.
Qed.

Lemma instanceof_classAt h c C :
  instanceof h c C = true <-> classAt h c = Some C.
Proof.
  unfold instanceof, classAt, bodyOf.
  destruct (objects h !! c) as [o|]; simpl.
  - rewrite bool_decide_eq_true. split; [now intros ->|now intros [= ->]].
  - split; discriminate.
Qed.

Lemma instanceof_not_classAt h c C :
  instanceof h c C = false <-> classAt h c <> Some C.
Proof.
  rewrite <- instanceof_classAt. now destruct (instanceof h c C).
Qed.

(** C2. [GitHub.of(project)] changes nothing, and returns the first
    component of the project, in insertion order, whose runtime class is
    [GitHub]: every component before it is of another class, and the
    result is [undefined] exactly when the project has no component of
    that class.  After [new GitHub(project, options)] on a project without
    one, whatever else is registered on it, it returns the very reference
    the constructor returned, a new object of class [GitHub]. *)
Theorem of_first_GitHub (p : Project) (h : Heap) :
  (let (r, h') := GitHub.of_ p h in
   h' = h /\
   match r with
   | Some g =>
       classAt h g = Some GitHubClass /\
       exists l1 l2,
         elements h (components p) = l1 ++ g :: l2 /\
         Forall (fun c => classAt h c <> Some GitHubClass) l1
   | None =>
       Forall (fun c => classAt h c <> Some GitHubClass)
         (elements h (components p))
   end /\
   (r = None <->
    Forall (fun c => classAt h c <> Some GitHubClass)
      (elements h (components p)))) /\
  (forall options,
     valid h p -> closed h p ->
     Forall (fun c => classAt h c <> Some GitHubClass)
       (elements h (components p)) ->
     let (g, h1) := GitHub.new p options h in
     GitHub.of_ p h1 = (Some g, h1) /\
     ~ In g (elements h (components p)) /\
     classAt h g = None /\
     classAt h1 g = Some GitHubClass).
Proof.
  assert (NotGH : forall l,
            Forall (fun c => GitHub.isGitHub h c = false) l <->
            Forall (fun c => classAt h c <> Some GitHubClass) l).
  { intros l. rewrite !List.Forall_forall. split; intros H c Hc.
    - apply instanceof_not_classAt, H, Hc.
    - apply instanceof_not_classAt, H, Hc. }
  split.
  - rewrite of_run. split; [reflexivity|]. split.
    + destruct (List.find _ _) as [g|] eqn:F.
      * apply find_first in F. destruct F as (Hg & l1 & l2 & E & Hl1).
        split; [now apply instanceof_classAt|].
        exists l1, l2. split; [assumption|]. now apply NotGH.
      * apply find_none_iff in F. now apply NotGH.
    + rewrite find_none_iff. apply NotGH.
  - intros options Hv Hc Hnone. apply NotGH, find_none_iff in Hnone.
    rewrite new_run. cbv zeta. rewrite of_run.
    rewrite constructing_elements by assumption.
    split; [|split; [|split]].
    + f_equal. rewrite find_app.
      replace (List.find _ (elements (mkHeap (objects h) (arrays h)) (components p)))
        with (@None Ref).
      * cbn [seq List.find]. unfold GitHub.isGitHub at 1, instanceof.
        now rewrite constructing_this.
      * symmetry. apply find_none_iff. apply find_none_iff in Hnone.
        unfold closed in Hc. rewrite Forall_forall in *.
        intros c Hin. unfold GitHub.isGitHub.
        rewrite (extends_instanceof (mkHeap (objects h) (arrays h))).
        -- apply (Hnone c Hin).
        -- apply constructing_extends.
        -- apply (Hc c Hin).
    + intros Hin. unfold closed in Hc. rewrite List.Forall_forall in Hc.
      specialize (Hc _ Hin). lia.
    + unfold classAt, bodyOf. now rewrite lookup_ge_None_2 by lia.
    + unfold classAt, bodyOf. now rewrite constructing_this.
Qed.

Lemma of_first_GitHub_witness :
  let (g, h1) := GitHub.new sampleProject None ignoreFileHeap in
  GitHub.of_ sampleProject h1 = (Some g, h1) /\
  ~ In g (elements ignoreFileHeap (components sampleProject)) /\
  classAt ignoreFileHeap g = None /\
  classAt h1 g = Some GitHubClass.
Proof.
  apply (proj2 (of_first_GitHub sampleProject ignoreFileHeap) None).
  - unfold valid. vm_compute. lia.
  - unfold closed. vm_compute. repeat constructor.
  - repeat constructor. vm_compute. discriminate.
Defined.

Lemma new_fieldsOf p options h :
  let o := options ?? GitHubOptions.empty in
  let (g, h') := GitHub.new p options h in
  g = length (objects h) /\
  extends h h' /\
  fieldsOf h' g = Some (builtFields g o) /\
  forall k, bodyOf h' (g + S k)%nat = builtChildren g o !! k.
Proof.
  intros o. rewrite new_run. fold o. split; [reflexivity|]. split; [|split].
  - destruct h. apply constructing_extends.
  - unfold fieldsOf. now rewrite constructing_this.
  - intros k. unfold bodyOf. rewrite constructing_nth_child.
    now destruct (builtChildren _ _ !! k).
Qed.

Lemma constructed_app (h : Heap) l arrs C :
  constructed (mkHeap (objects h ++ l) arrs) C =
  (constructed h C +
   length (List.filter (fun o => bool_decide (classOf (body o) = C)) l))%nat.
Proof. unfold constructed. simpl. now rewrite List.filter_app, length_app. Qed.

Lemma filter_map_component p C cs :
  length (List.filter (fun o => bool_decide (classOf (body o) = C))
            (map (mkComponent p) cs)) =
  length (List.filter (fun b => bool_decide (classOf b = C)) cs).
Proof.
  induction cs as [|b cs IH]; simpl; [reflexivity|].
  destruct (bool_decide _); simpl; now rewrite IH.
Qed.

(** Among the addresses of a block of objects at the end of the store,
    as many are instances of [C] as there are objects of class [C] in the
    block. *)
Lemma filter_block os l arrs C :
  length (List.filter (fun c => instanceof (mkHeap (os ++ l) arrs) c C)
            (seq (length os) (length l))) =
  length (List.filter (fun o => bool_decide (classOf (body o) = C)) l).
Proof.
  revert os. induction l as [|x l IH]; intros os; simpl; [reflexivity|].
  unfold instanceof at 1. simpl. rewrite list_lookup_middle by reflexivity.
  specialize (IH (os ++ [x])).
  rewrite length_app, Nat.add_1_r, <- app_assoc in IH. simpl in IH.
  destruct (bool_decide _); simpl; now rewrite IH.
Qed.

Lemma filter_classOf C l :
  length (List.filter (fun b => bool_decide (classOf b = C)) l) =
  length (List.filter (fun c => bool_decide (c = C)) (map classOf l)).
Proof.
  induction l as [|b l IH]; simpl; [reflexivity|].
  destruct (bool_decide _); simpl; now rewrite IH.
Qed.

Lemma builtOf_this C g o :
  length (List.filter (fun b => bool_decide (classOf b = C))
            (GitHubBody (builtFields g o) :: builtChildren g o)) = builtOf C o.
Proof.
  rewrite filter_classOf. unfold builtOf. f_equal. f_equal.
  unfold builtClasses, builtChildren.
  destruct (wantsMergify o), (wantsPullRequestLint o),
    (wantsAutoApprove o), (wantsStale o); reflexivity.
Qed.

Lemma new_constructed p options h C :
  let o := options ?? GitHubOptions.empty in
  constructed (snd (GitHub.new p options h)) C =
  (constructed h C + builtOf C o)%nat.
Proof.
  intros o. rewrite new_run. fold o. unfold constructing. simpl snd.
  rewrite constructed_app. f_equal.
  rewrite <- (builtOf_this C (length (objects h)) o). simpl.
  destruct (bool_decide _); simpl; now rewrite filter_map_component.
Qed.

Lemma new_registered p options h C :
  valid h p -> closed h p ->
  let o := options ?? GitHubOptions.empty in
  registered (snd (GitHub.new p options h)) p C =
  (registered h p C + builtOf C o)%nat.
Proof.
  intros Hv Hc o. rewrite new_run. fold o. simpl snd.
  unfold registered. rewrite constructing_elements by assumption.
  rewrite List.filter_app, length_app. f_equal.
  - rewrite (extends_filter (mkHeap (objects h) (arrays h))).
    + reflexivity.
    + apply constructing_extends.
    + exact Hc.
  - rewrite <- (builtOf_this C (length (objects h)) o).
    unfold constructing.
    set (l := mkComponent p (GitHubBody _) :: map (mkComponent p) _).
    replace (S (length (builtChildren (length (objects h)) o))) with (length l)
      by (unfold l; simpl; now rewrite List.length_map).
    rewrite filter_block. unfold l. simpl.
    destruct (bool_decide _); simpl; now rewrite filter_map_component.
Qed.

Lemma builtOf_Mergify o : builtOf MergifyClass o = one (wantsMergify o).
Proof.
  unfold builtOf, builtClasses.
  destruct (wantsMergify o), (wantsPullRequestLint o),
    (wantsAutoApprove o), (wantsStale o); reflexivity.
Qed.

Lemma builtOf_PullRequestLint o :
  builtOf PullRequestLintClass o = one (wantsPullRequestLint o).
Proof.
  unfold builtOf, builtClasses.
  destruct (wantsMergify o), (wantsPullRequestLint o),
    (wantsAutoApprove o), (wantsStale o); reflexivity.
Qed.

Lemma builtOf_AutoApprove o :
  builtOf AutoApproveClass o = one (wantsAutoApprove o).
Proof.
  unfold builtOf, builtClasses.
  destruct (wantsMergify o), (wantsPullRequestLint o),
    (wantsAutoApprove o), (wantsStale o); reflexivity.
Qed.

Lemma builtOf_Stale o : builtOf StaleClass o = one (wantsStale o).
Proof.
  unfold builtOf, builtClasses.
  destruct (wantsMergify o), (wantsPullRequestLint o),
    (wantsAutoApprove o), (wantsStale o); reflexivity.
Qed.

Lemma wantsAutoApprove_value o :
  wantsAutoApprove o =
  match JS.get (GitHubOptions.autoApproveOptions o) with
  | Some _ => true
  | None => false
  end.
Proof.
  unfold wantsAutoApprove.
  now destruct (JS.get (GitHubOptions.autoApproveOptions o)).
Qed.

(** C5. On a project whose component array is allocated and holds only
    allocated objects, the constructor builds and registers exactly one
    child of a kind for each switch that is on, and none for a switch that
    is off: [mergify], [pullRequestLint] and [stale] are on unless they
    hold [false]; [autoApproveOptions] is on when it holds an options
    object. *)
Theorem constructor_one_child_per_switch p options h :
  valid h p -> closed h p ->
  let o := options ?? GitHubOptions.empty in
  let (g, h') := GitHub.new p options h in
  (registered h' p MergifyClass =
     (registered h p MergifyClass
      + one (JS.get (GitHubOptions.mergify o) ?? true))%nat /\
   constructed h' MergifyClass =
     (constructed h MergifyClass
      + one (JS.get (GitHubOptions.mergify o) ?? true))%nat) /\
  (registered h' p PullRequestLintClass =
     (registered h p PullRequestLintClass
      + one (JS.get (GitHubOptions.pullRequestLint o) ?? true))%nat /\
   constructed h' PullRequestLintClass =
     (constructed h PullRequestLintClass
      + one (JS.get (GitHubOptions.pullRequestLint o) ?? true))%nat) /\
  (registered h' p AutoApproveClass =
     (registered h p AutoApproveClass
      + one (match JS.get (GitHubOptions.autoApproveOptions o) with
             | Some _ => true
             | None => false
             end))%nat /\
   constructed h' AutoApproveClass =
     (constructed h AutoApproveClass
      + one (match JS.get (GitHubOptions.autoApproveOptions o) with
             | Some _ => true
             | None => false
             end))%nat) /\
  (registered h' p StaleClass =
     (registered h p StaleClass
      + one (JS.get (GitHubOptions.stale o) ?? true))%nat /\
   constructed h' StaleClass =
     (constructed h StaleClass
      + one (JS.get (GitHubOptions.stale o) ?? true))%nat).
Proof.
  intros Hv Hc o.
  pose proof (fun C => new_registered p options h C Hv Hc) as R.
  pose proof (new_constructed p options h) as K.
  cbv zeta in R, K. fold o in R, K.
  destruct (GitHub.new p options h) as [g h']. simpl in R, K.
  rewrite !R, !K.
  rewrite builtOf_Mergify, builtOf_PullRequestLint, builtOf_AutoApprove,
    builtOf_Stale, wantsAutoApprove_value.
  repeat split; reflexivity.
Qed.

Lemma constructor_one_child_per_switch_witness :
  let (g, h') := GitHub.new sampleProject (Some sampleOptions) emptyHeap in
  (registered h' sampleProject MergifyClass = 0%nat /\
   constructed h' MergifyClass = 0%nat) /\
  (registered h' sampleProject PullRequestLintClass = 1%nat /\
   constructed h' PullRequestLintClass = 1%nat) /\
  (registered h' sampleProject AutoApproveClass = 1%nat /\
   constructed h' AutoApproveClass = 1%nat) /\
  (registered h' sampleProject StaleClass = 1%nat /\
   constructed h' StaleClass = 1%nat).
Proof.
  apply (constructor_one_child_per_switch sampleProject (Some sampleOptions)
           emptyHeap).
  - unfold valid. vm_compute. lia.
  - unfold closed. vm_compute. constructor.
Defined.

(** C6. When [options.mergify] is [true], [undefined] or left out, the
    constructor builds a [Mergify] child from [options.mergifyOptions] and
    keeps it in the field [mergify]; when it is [false] the field stays
    [undefined] and no [Mergify] is built, whatever [mergifyOptions]
    holds. *)
Theorem mergify_switch p options h :
  let o := options ?? GitHubOptions.empty in
  let (g, h') := GitHub.new p options h in
  exists f, fieldsOf h' g = Some f /\
    match JS.get (GitHubOptions.mergify o) with
    | Some false =>
        mergify f = None /\
        constructed h' MergifyClass = constructed h MergifyClass
    | _ =>
        exists m, mergify f = Some m /\
          bodyOf h' m =
            Some (MergifyBody g (JS.get (GitHubOptions.mergifyOptions o))) /\
          constructed h' MergifyClass = S (constructed h MergifyClass)
    end.
Proof.
  intros o.
  pose proof (new_fieldsOf p options h) as F.
  pose proof (new_constructed p options h MergifyClass) as K.
  cbv zeta in F, K. fold o in F, K.
  destruct (GitHub.new p options h) as [g h']. simpl in K.
  destruct F as (_ & _ & F & B).
  exists (builtFields g o). split; [assumption|].
  rewrite K, builtOf_Mergify. specialize (B 0%nat).
  unfold builtFields, builtChildren, wantsMergify in *.
  destruct (JS.get (GitHubOptions.mergify o)) as [[|]|]; simpl in *.
  - exists (S g). rewrite Nat.add_1_r in *. split; [reflexivity|]. split; [assumption|lia].
  - split; [reflexivity|lia].
  - exists (S g). rewrite Nat.add_1_r in *. split; [reflexivity|]. split; [assumption|lia].
Qed.

(** C3, amended. The constructor builds an [AutoApprove] child and keeps
    it in the field [autoApprove] exactly when [options.autoApproveOptions]
    holds an options object, the empty object included; when the key is
    left out, or is there holding [undefined], the field stays [undefined]
    and no child is built. *)
Theorem autoApprove_iff_options_object p options h :
  let o := options ?? GitHubOptions.empty in
  let (g, h') := GitHub.new p options h in
  exists f, fieldsOf h' g = Some f /\
    (autoApprove f <> None <->
     JS.get (GitHubOptions.autoApproveOptions o) <> None) /\
    match GitHubOptions.autoApproveOptions o with
    | JS.Present (Some v) =>
        exists a, autoApprove f = Some a /\
          bodyOf h' a = Some (AutoApproveBody g (Some v)) /\
          constructed h' AutoApproveClass = S (constructed h AutoApproveClass)
    | JS.Present None | JS.Absent =>
        autoApprove f = None /\
        constructed h' AutoApproveClass = constructed h AutoApproveClass
    end.
Proof.
  intros o.
  pose proof (new_fieldsOf p options h) as F.
  pose proof (new_constructed p options h AutoApproveClass) as K.
  cbv zeta in F, K. fold o in F, K.
  destruct (GitHub.new p options h) as [g h']. simpl in K.
  destruct F as (_ & _ & F & B).
  exists (builtFields g o). split; [assumption|].
  rewrite K, builtOf_AutoApprove.
  specialize (B (one (wantsMergify o) + one (wantsPullRequestLint o))%nat).
  unfold builtFields, builtChildren, wantsAutoApprove in *.
  destruct (GitHubOptions.autoApproveOptions o) as [|[v|]]; simpl in *.
  - split; [tauto|]. split; [reflexivity|lia].
  - split; [split; congruence|].
    eexists. split; [reflexivity|]. split; [|lia].
    unfold one in B.
    match goal with
    | |- bodyOf _ ?i = _ =>
        replace i with
          (g + S ((if wantsMergify o then 1 else 0)
                  + (if wantsPullRequestLint o then 1 else 0)))%nat by lia
    end.
    rewrite B.
    destruct (wantsMergify o), (wantsPullRequestLint o); reflexivity.
  - split; [tauto|]. split; [reflexivity|lia].
Qed.

(** C3 as stated fails: the key is present, yet no child is built and
    the field is [undefined]. *)
Lemma autoApprove_key_present_not_constructed :
  JS.has_key (GitHubOptions.autoApproveOptions undefinedAutoApprove) = true /\
  let (g, h') := GitHub.new sampleProject (Some undefinedAutoApprove) emptyHeap in
  (exists f, fieldsOf h' g = Some f /\ autoApprove f = None) /\
  constructed h' AutoApproveClass = 0%nat.
Proof.
  split; [reflexivity|]. vm_compute. split; [|reflexivity].
  eexists. split; reflexivity.
Qed.

Lemma extends_same_objects h h' : objects h' = objects h -> extends h h'.
Proof. intros E. exists []. now rewrite app_nil_r. Qed.

Section Calls.
Context {collator : Collator}.

Lemma perform_extends c h : extends h (snd (perform c h)).
Proof.
  destruct c; unfold perform, bind, ret.
  - rewrite of_run. apply extends_refl.
  - rewrite new_run. simpl. destruct h. apply constructing_extends.
  - rewrite workflows_run. now apply extends_same_objects.
  - rewrite tryFindWorkflow_run. now apply extends_same_objects.
  - rewrite addWorkflow_run. apply Component_new_extends.
  - rewrite addPullRequestTemplate_run. apply Component_new_extends.
  - rewrite addDependabot_run. apply Component_new_extends.
Qed.

Lemma performAll_extends cs h : extends h (snd (performAll cs h)).
Proof.
  revert h. induction cs as [|c cs IH]; intros h; simpl.
  - apply extends_refl.
  - unfold bind. pose proof (perform_extends c h) as E.
    destruct (perform c h) as [[] h1]. simpl in E.
    eapply extends_trans; [exact E|apply IH].
Qed.

End Calls.

(** C7. After construction [workflowsEnabled] holds [options.workflows],
    or [true] when that is [undefined] or left out, and [projenTokenSecret]
    holds [options.projenTokenSecret], or "PROJEN_GITHUB_TOKEN" when that
    is [undefined] or left out; no sequence of calls of this slice, on any
    component or project, changes the fields afterwards. *)
Theorem fields_set_once (collator : Collator) p options h :
  let o := options ?? GitHubOptions.empty in
  let (g, h') := GitHub.new p options h in
  exists f, fieldsOf h' g = Some f /\
    workflowsEnabled f =
      Some (match JS.get (GitHubOptions.workflows o) with
            | Some b => b
            | None => true
            end) /\
    projenTokenSecret f =
      Some (match JS.get (GitHubOptions.projenTokenSecret o) with
            | Some s => s
            | None => "PROJEN_GITHUB_TOKEN"
            end) /\
    forall cs, fieldsOf (snd (performAll cs h')) g = Some f.
Proof.
  intros o.
  pose proof (new_fieldsOf p options h) as F.
  cbv zeta in F. fold o in F.
  destruct (GitHub.new p options h) as [g h'].
  destruct F as (Hg & E & F & _).
  exists (builtFields g o). split; [assumption|].
  split; [reflexivity|]. split; [reflexivity|].
  intros cs. rewrite (extends_fieldsOf h'); [assumption|apply performAll_extends|].
  unfold fieldsOf in F. destruct (objects h' !! g) eqn:L; [|discriminate].
  eapply lookup_lt_Some; eauto.
Qed.

Lemma named_true n h w : GitHub.named n h w = true <-> name h w = n.
Proof. apply String.eqb_eq. Qed.

Lemma named_false n h w : GitHub.named n h w = false <-> name h w <> n.
Proof. apply String.eqb_neq. Qed.

(** C4. [tryFindWorkflow(name)] always returns: either a workflow of the
    project whose name is exactly [name], the first such one in the
    name-sorted sequence that [workflows] yields, or [undefined], and that
    exactly when no workflow of the project has that name. *)
Theorem tryFindWorkflow_first_match (collator : Collator)
    (this : Ref) (n : string) (h : Heap) :
  let (ws, h1) := GitHub.workflows this h in
  let (r, h') := GitHub.tryFindWorkflow this n h in
  match r with
  | Some w =>
      name h w = n /\
      In w (elements h (components (projectOf h this))) /\
      GitHub.isWorkflow h w = true /\
      exists l1 l2, elements h1 ws = l1 ++ w :: l2 /\
                    Forall (fun x => name h x <> n) l1
  | None => Forall (fun x => name h x <> n) (elements h1 ws)
  end /\
  (r = None <->
   forall c, In c (elements h (components (projectOf h this))) ->
             GitHub.isWorkflow h c = true -> name h c <> n).
Proof.
  rewrite workflows_run, tryFindWorkflow_run, elements_snoc.
  pose proof (sortedWorkflows_Permutation h this) as P.
  split.
  - destruct (List.find _ _) as [w|] eqn:F.
    + apply find_first in F. destruct F as (Hw & l1 & l2 & E & Hl1).
      apply named_true in Hw.
      assert (Hin : In w (sortedWorkflows h this))
        by (rewrite E; apply in_or_app; right; now left).
      apply (Permutation_in _ P), filter_In in Hin.
      repeat split; try tauto.
      exists l1, l2. split; [assumption|].
      eapply Forall_impl; [exact Hl1|]. intros x. apply named_false.
    + apply find_none_iff in F.
      eapply Forall_impl; [exact F|]. intros x. apply named_false.
  - rewrite find_none_iff, List.Forall_forall. split.
    + intros H c Hc Hw. apply named_false, H.
      apply (Permutation_in _ (Permutation_sym P)), filter_In. tauto.
    + intros H c Hc. apply named_false.
      apply (Permutation_in _ P), filter_In in Hc. now apply H.
Qed.





Lemma bodyOf_instanceof h w b :
  bodyOf h w = Some b -> instanceof h w (classOf b) = true.
Proof.
  unfold bodyOf, instanceof. destruct (objects h !! w) as [[q b']|]; simpl;
    [|discriminate]. intros [= ->]. now apply bool_decide_eq_true.
Qed.


Section TieBlock.
Context {collator : Collator}.


End TieBlock.





(** A constructor that refuses a name already taken makes the second of
    two calls with one name throw. *)
Example addWorkflow_may_throw :
  match Throwing.addWorkflow rejectsTakenName 0%nat "ci" sampleHeap with
  | Returned _ h1 => Throwing.addWorkflow rejectsTakenName 0%nat "ci" h1 = Thrown
  | Thrown => False
  end.
Proof. vm_compute. reflexivity. Qed.

(** C9. [workflows] is computed from the component collection at each
    read: after a read, [addWorkflow(n)] on a component of an allocated
    project, and a second read, the second array holds the new workflow
    along with the workflows of the first, in an array of its own, and the
    array of the first read is as it was. *)
Theorem workflows_reads_live_components (collator : Collator)
    (this : Ref) (n : string) (h : Heap) :
  GitHub.isGitHub h this = true ->
  valid h (projectOf h this) ->
  closed h (projectOf h this) ->
  let (ws1, h1) := GitHub.workflows this h in
  let (w, h2) := GitHub.addWorkflow this n h1 in
  let (ws2, h3) := GitHub.workflows this h2 in
  In w (elements h3 ws2) /\
  ~ In w (elements h1 ws1) /\
  Permutation (elements h3 ws2) (w :: elements h1 ws1) /\
  ws2 <> ws1 /\
  elements h3 ws1 = elements h1 ws1.
Proof.
  intros Hg Hv Hc. apply isGitHub_allocated in Hg.
  set (p := projectOf h this) in *.
  rewrite workflows_run.
  set (h1 := mkHeap (objects h) (arrays h ++ [sortedWorkflows h this])).
  assert (E01 : extends h h1) by now apply extends_same_objects.
  assert (V1 : valid h1 p).
  { unfold valid, h1 in *. simpl. rewrite length_app. lia. }
  rewrite addWorkflow_added.
  rewrite (extends_projectOf h h1) by assumption. fold p.
  set (h2 := added h1 p (GithubWorkflowBody this n)).
  assert (E12 : extends h1 h2) by apply added_extends.
  assert (E02 : extends h h2) by (apply (extends_trans h h1 h2); assumption).
  assert (S1 : elements h1 (length (arrays h)) = sortedWorkflows h this)
    by apply elements_snoc.
  rewrite workflows_run, elements_snoc, !S1.
  change (length (objects h1)) with (length (objects h)).
  assert (El : elements h2 (components p) =
               elements h (components p) ++ [length (objects h)]).
  { unfold h2. rewrite added_elements by assumption.
    unfold h1. now rewrite elements_old by exact Hv. }
  assert (W : GitHub.isWorkflow h2 (length (objects h)) = true)
    by apply (added_instanceof h1 p (GithubWorkflowBody this n)).
  assert (P2 : Permutation (sortedWorkflows h2 this)
                 (length (objects h) :: sortedWorkflows h this)).
  { rewrite sortedWorkflows_Permutation.
    rewrite (extends_projectOf h h2) by assumption. fold p.
    rewrite El, List.filter_app. cbn [List.filter]. rewrite W.
    rewrite <- Permutation_cons_append. constructor.
    unfold GitHub.isWorkflow.
    rewrite (extends_filter h h2) by assumption.
    symmetry. apply sortedWorkflows_Permutation. }
  assert (Hold : forall c, In c (sortedWorkflows h this) ->
                           (c < length (objects h))%nat).
  { intros c Hin.
    apply (Permutation_in _ (sortedWorkflows_Permutation h this)) in Hin.
    apply filter_In in Hin. now apply instanceof_allocated with GithubWorkflowClass. }
  split; [|split; [|split; [|split]]].
  - apply (Permutation_in _ (Permutation_sym P2)). now left.
  - intros Hin. apply Hold in Hin. lia.
  - exact P2.
  - unfold h2, added. simpl. rewrite length_alter, length_app. simpl. lia.
  - rewrite elements_old.
    + unfold h2. rewrite added_elements_ne; [exact S1|].
      unfold valid in Hv. lia.
    + unfold h2, added. simpl. rewrite length_alter, length_app. simpl. lia.
Qed.

Lemma workflows_reads_live_components_witness :
  let (ws1, h1) := GitHub.workflows 0%nat sampleHeap in
  let (w, h2) := GitHub.addWorkflow 0%nat "release" h1 in
  let (ws2, h3) := GitHub.workflows 0%nat h2 in
  In w (elements h3 ws2) /\
  ~ In w (elements h1 ws1) /\
  Permutation (elements h3 ws2) (w :: elements h1 ws1) /\
  ws2 <> ws1 /\
  elements h3 ws1 = elements h1 ws1.
Proof.
  apply (workflows_reads_live_components ordinalCollator 0%nat "release"
           sampleHeap).
  - reflexivity.
  - unfold valid. vm_compute. lia.
  - unfold closed. vm_compute. repeat constructor.
Defined.

Section Queries.
Context {collator : Collator}.

Lemma query_frame c p h :
  isQuery c = true -> valid h p ->
  let h' := snd (perform c h) in
  objects h' = objects h /\
  elements h' (components p) = elements h (components p) /\
  valid h' p.
Proof.
  intros Hq Hv. destruct c; try discriminate; unfold perform, bind, ret.
  - rewrite of_run. simpl. auto.
  - rewrite workflows_run. simpl. split; [reflexivity|]. split.
    + now apply elements_old.
    + unfold valid in *. simpl. rewrite length_app. lia.
  - rewrite tryFindWorkflow_run. simpl. split; [reflexivity|]. split.
    + now apply elements_old.
    + unfold valid in *. simpl. rewrite length_app. lia.
Qed.

End Queries.

(** C10. Reading [workflows], calling [tryFindWorkflow] or calling [of],
    any number of times and in any order, leaves the objects and the
    component array of every allocated project as they were, in the same
    order: the array [workflows] sorts is a new one, never the component
    array itself. *)
Theorem queries_leave_components (collator : Collator)
    (cs : list Call) (p : Project) (h : Heap) :
  Forall (fun c => isQuery c = true) cs ->
  valid h p ->
  (let h' := snd (performAll cs h) in
   objects h' = objects h /\
   elements h' (components p) = elements h (components p)) /\
  (forall this,
     let (ws, h') := GitHub.workflows this h in
     ws <> components p /\
     elements h' (components p) = elements h (components p)) /\
  (forall this n,
     elements (snd (GitHub.tryFindWorkflow this n h)) (components p) =
     elements h (components p)) /\
  snd (GitHub.of_ p h) = h.
Proof.
  intros Hq Hv. split; [|split; [|split]].
  - revert h Hv. induction Hq as [|c cs Hc _ IH]; intros h Hv; simpl.
    + auto.
    + unfold bind.
      destruct (query_frame c p h Hc Hv) as (Ho & He & Hv').
      destruct (perform c h) as [[] h1]. simpl in Ho, He, Hv'.
      destruct (IH h1 Hv') as [Ho' He']. split; congruence.
  - intros this. rewrite workflows_run. split.
    + unfold valid in Hv. lia.
    + now apply elements_old.
  - intros this n. rewrite tryFindWorkflow_run. now apply elements_old.
  - reflexivity.
Qed.

Lemma queries_leave_components_witness :
  let h' :=
    snd (performAll (collator := ordinalCollator)
           [CallWorkflows 0%nat; CallTryFindWorkflow 0%nat "a";
            CallOf sampleProject; CallWorkflows 0%nat]
           twoWorkflows) in
  objects h' = objects twoWorkflows /\
  elements h' (components sampleProject) =
    elements twoWorkflows (components sampleProject).
Proof.
  apply (queries_leave_components ordinalCollator
           [CallWorkflows 0%nat; CallTryFindWorkflow 0%nat "a";
            CallOf sampleProject; CallWorkflows 0%nat]
           sampleProject twoWorkflows).
  - repeat constructor.
  - unfold valid. vm_compute. lia.
Defined.

(** [sort] does work in place: handed the component array itself, it
    would reorder the components of the project. *)
Example sort_in_place_reorders :
  elements twoWorkflows 0 = [0; 1; 2; 3; 4; 5]%nat /\
  elements (snd (Array.sort (GitHub.byName (collator := ordinalCollator)) 0
                   twoWorkflows)) 0 <> elements twoWorkflows 0.
Proof. vm_compute. split; [reflexivity|discriminate]. Qed.

(** Names are compared exactly: "Build" is not "build". *)
Example tryFindWorkflow_case_sensitive :
  let h1 := snd (GitHub.addWorkflow 0%nat "Build" sampleHeap) in
  fst (GitHub.tryFindWorkflow (collator := ordinalCollator) 0%nat "build" h1) = None /\
  fst (GitHub.tryFindWorkflow (collator := ordinalCollator) 0%nat "Build" h1) = Some 4%nat.
Proof. vm_compute. split; reflexivity. Qed.

(** * Further properties *)

(** ** Heaps only grow *)

Lemma grows_refl p h : valid h p -> grows p h h.
Proof.
  intros Hv. split; [apply extends_refl|]. split; [assumption|].
  exists []. rewrite app_nil_r. split; [reflexivity|].
  split; [constructor|apply NoDup_nil_2].
Qed.

Lemma extends_length h h' :
  extends h h' -> (length (objects h) <= length (objects h'))%nat.
Proof. intros [l ->]. rewrite length_app. lia. Qed.

Lemma grows_trans p h1 h2 h3 : grows p h1 h2 -> grows p h2 h3 -> grows p h1 h3.
Proof.
  intros (E1 & V1 & l1 & L1 & F1 & N1) (E2 & V2 & l2 & L2 & F2 & N2).
  pose proof (extends_length _ _ E1). pose proof (extends_length _ _ E2).
  split; [eapply extends_trans; eassumption|]. split; [assumption|].
  exists (l1 ++ l2). split; [now rewrite L2, L1, app_assoc|]. split.
  - apply Forall_app. split.
    + eapply Forall_impl; [exact F1|]. simpl. lia.
    + eapply Forall_impl; [exact F2|]. simpl. lia.
  - apply NoDup_app. split; [assumption|]. split; [|assumption].
    intros x H1 H2.
    rewrite Forall_forall in F1, F2.
    specialize (F1 _ H1). specialize (F2 _ H2). lia.
Qed.

(** What growing keeps. *)
Lemma grows_closed p h h' : grows p h h' -> closed h p -> closed h' p.
Proof.
  intros (E & V & l & L & F & N) Hc. unfold closed in *. rewrite L.
  pose proof (extends_length _ _ E).
  apply Forall_app. split.
  - eapply Forall_impl; [exact Hc|]. simpl. lia.
  - eapply Forall_impl; [exact F|]. simpl. lia.
Qed.

Lemma grows_NoDup p h h' :
  grows p h h' -> closed h p ->
  NoDup (elements h (components p)) -> NoDup (elements h' (components p)).
Proof.
  intros (E & V & l & L & F & N) Hc Hn. rewrite L.
  apply NoDup_app. split; [assumption|]. split; [|assumption].
  intros x H1 H2. unfold closed in Hc.
  rewrite Forall_forall in Hc, F.
  specialize (Hc _ H1). specialize (F _ H2). lia.
Qed.

Lemma project_eq_dec (p q : Project) : {components q = components p} + {components q <> components p}.
Proof. apply Nat.eq_dec. Qed.

Lemma Component_new_grows p q b h :
  valid h p -> grows p h (snd (Component.new q b h)).
Proof.
  intros Hv. change (snd (Component.new q b h)) with (added h q b).
  split; [apply added_extends|]. split; [now apply added_valid|].
  rewrite added_length.
  destruct (project_eq_dec p q) as [E|E].
  - exists [length (objects h)]. split; [|split].
    + destruct p, q. simpl in E. subst. now apply added_elements.
    + constructor; [lia|constructor].
    + apply NoDup_singleton.
  - exists []. rewrite app_nil_r. split; [|split; [constructor|apply NoDup_nil_2]].
    apply added_elements_ne. congruence.
Qed.

Lemma new_grows p q options h :
  valid h p -> grows p h (snd (GitHub.new q options h)).
Proof.
  intros Hv. rewrite new_run. simpl snd.
  set (f := builtFields _ _). set (cs := builtChildren _ _).
  split; [destruct h; apply constructing_extends|]. split.
  { unfold valid, constructing in *. simpl. now rewrite length_alter. }
  destruct (project_eq_dec p q) as [E|E].
  - exists (seq (length (objects h)) (S (length cs))). split; [|split].
    + destruct p, q. simpl in E. subst.
      rewrite constructing_elements by exact Hv. now destruct h.
    + apply List.Forall_forall. intros c Hc. apply in_seq in Hc.
      unfold constructing. simpl. rewrite length_app. simpl.
      rewrite List.length_map. lia.
    + apply NoDup_seq.
  - exists []. rewrite app_nil_r. split; [|split; [constructor|apply NoDup_nil_2]].
    rewrite constructing_elements_ne by congruence. now destruct h.
Qed.

Section Growth.
Context {collator : Collator}.

Lemma perform_grows p c h : valid h p -> grows p h (snd (perform c h)).
Proof.
  intros Hv.
  destruct c; unfold perform, bind, ret.
  - rewrite of_run. simpl. now apply grows_refl.
  - pose proof (new_grows p p0 options h Hv) as G.
    destruct (GitHub.new p0 options h). exact G.
  - pose proof (query_frame (CallWorkflows this) p h eq_refl Hv) as (Ho & He & Hv').
    unfold perform, bind, ret in Ho, He, Hv'.
    destruct (GitHub.workflows this h) as [ws h']. simpl in *.
    split; [now apply extends_same_objects|]. split; [assumption|].
    exists []. rewrite app_nil_r. split; [assumption|split; [constructor|apply NoDup_nil_2]].
  - pose proof (query_frame (CallTryFindWorkflow this n) p h eq_refl Hv)
      as (Ho & He & Hv').
    unfold perform, bind, ret in Ho, He, Hv'.
    destruct (GitHub.tryFindWorkflow this n h) as [r h']. simpl in *.
    split; [now apply extends_same_objects|]. split; [assumption|].
    exists []. rewrite app_nil_r. split; [assumption|split; [constructor|apply NoDup_nil_2]].
  - rewrite addWorkflow_run. now apply Component_new_grows.
  - rewrite addPullRequestTemplate_run. now apply Component_new_grows.
  - rewrite addDependabot_run. now apply Component_new_grows.
Qed.

Lemma performAll_grows p cs h : valid h p -> grows p h (snd (performAll cs h)).
Proof.
  revert h. induction cs as [|c cs IH]; intros h Hv; simpl.
  - now apply grows_refl.
  - unfold bind. pose proof (perform_grows p c h Hv) as G.
    destruct (perform c h) as [[] h1]. simpl in G.
    eapply grows_trans; [exact G|]. apply IH. apply G.
Qed.

End Growth.

(** X1. Whatever calls are made, on whatever receivers, the component
    collection of an allocated project is only ever appended to: its
    earlier contents stay, in order, as a prefix; no existing object is
    changed, reparented or removed; and when the collection held only
    allocated objects, each once, it still does. *)
Theorem components_append_only (collator : Collator)
    (cs : list Call) (p : Project) (h : Heap) :
  valid h p ->
  let h' := snd (performAll cs h) in
  (exists l, elements h' (components p) = elements h (components p) ++ l) /\
  (forall c, (c < length (objects h))%nat ->
     objects h' !! c = objects h !! c) /\
  valid h' p /\
  (closed h p -> closed h' p) /\
  (closed h p -> NoDup (elements h (components p)) ->
   NoDup (elements h' (components p))).
Proof.
  intros Hv h'. pose proof (performAll_grows p cs h Hv) as G. fold h' in G.
  split; [|split; [|split; [|split]]].
  - destruct G as (_ & _ & l & L & _). now exists l.
  - intros c Hc. apply extends_lookup; [apply G|assumption].
  - apply G.
  - now apply grows_closed.
  - now apply grows_NoDup.
Qed.

Lemma components_append_only_witness :
  let h' :=
    snd (performAll (collator := ordinalCollator)
           [CallAddWorkflow 0%nat "release"; CallNew sampleProject None;
            CallWorkflows 0%nat; CallAddDependabot 4%nat None]
           sampleHeap) in
  (exists l, elements h' (components sampleProject) =
             elements sampleHeap (components sampleProject) ++ l) /\
  (forall c, (c < length (objects sampleHeap))%nat ->
     objects h' !! c = objects sampleHeap !! c) /\
  valid h' sampleProject /\
  (closed sampleHeap sampleProject -> closed h' sampleProject) /\
  (closed sampleHeap sampleProject ->
   NoDup (elements sampleHeap (components sampleProject)) ->
   NoDup (elements h' (components sampleProject))).
Proof.
  apply (components_append_only ordinalCollator
           [CallAddWorkflow 0%nat "release"; CallNew sampleProject None;
            CallWorkflows 0%nat; CallAddDependabot 4%nat None]
           sampleProject sampleHeap).
  unfold valid. vm_compute. lia.
Defined.

(** ** Views of a grown heap *)

Lemma find_ext_in {A} (f g : A -> bool) l :
  (forall x, In x l -> f x = g x) -> List.find f l = List.find g l.
Proof.
  induction l as [|x l IH]; intros H; simpl; [reflexivity|].
  rewrite (H x) by now left. rewrite IH; [reflexivity|].
  intros y Hy. apply H. now right.
Qed.

Lemma filter_ext_in {A} (f g : A -> bool) l :
  (forall x, In x l -> f x = g x) -> List.filter f l = List.filter g l.
Proof.
  induction l as [|x l IH]; intros H; simpl; [reflexivity|].
  rewrite (H x) by now left. rewrite IH; [reflexivity|].
  intros y Hy. apply H. now right.
Qed.

Lemma insert_ext_in cmp cmp' x l :
  (forall y, In y l -> cmp x y = cmp' x y) ->
  Array.insert cmp x l = Array.insert cmp' x l.
Proof.
  induction l as [|y l IH]; intros H; simpl; [reflexivity|].
  rewrite (H y) by now left. rewrite IH; [reflexivity|].
  intros z Hz. apply H. now right.
Qed.

Lemma sorted_ext_in cmp cmp' l :
  (forall x y, In x l -> In y l -> cmp x y = cmp' x y) ->
  Array.sorted cmp l = Array.sorted cmp' l.
Proof.
  induction l as [|x l IH]; intros H; simpl; [reflexivity|].
  rewrite IH by (intros; apply H; now right).
  apply insert_ext_in. intros y Hy. apply H; [now left|right].
  now apply (Permutation_in _ (sorted_Permutation cmp' l)).
Qed.

Lemma closed_In h p c :
  closed h p -> In c (elements h (components p)) ->
  (c < length (objects h))%nat.
Proof. unfold closed. rewrite List.Forall_forall. auto. Qed.

Section Views.
Context {collator : Collator}.

(** The workflows of a project whose collection gained [l]: those it
    had, and the workflows among [l], sorted together. *)
Lemma sortedWorkflows_grown h h' g l :
  extends h h' -> closed h (projectOf h g) ->
  (g < length (objects h))%nat ->
  elements h' (components (projectOf h g)) =
    elements h (components (projectOf h g)) ++ l ->
  sortedWorkflows h' g =
  Array.sorted (GitHub.byName h')
    (List.filter (GitHub.isWorkflow h)
       (elements h (components (projectOf h g))) ++
     List.filter (GitHub.isWorkflow h') l).
Proof.
  intros E Hc Hg L. unfold sortedWorkflows.
  rewrite (extends_projectOf h h') by assumption.
  rewrite L, List.filter_app. do 2 f_equal.
  unfold GitHub.isWorkflow. now apply extends_filter.
Qed.

Lemma sortedWorkflows_same h h' g l :
  extends h h' -> closed h (projectOf h g) ->
  (g < length (objects h))%nat ->
  elements h' (components (projectOf h g)) =
    elements h (components (projectOf h g)) ++ l ->
  List.filter (GitHub.isWorkflow h') l = [] ->
  sortedWorkflows h' g = sortedWorkflows h g.
Proof.
  intros E Hc Hg L Hl.
  rewrite (sortedWorkflows_grown h h' g l) by assumption.
  rewrite Hl, app_nil_r. unfold sortedWorkflows.
  apply sorted_ext_in. intros x y Hx Hy.
  apply filter_In in Hx, Hy. unfold GitHub.byName.
  rewrite !(extends_name h h'); try assumption; reflexivity || (eapply closed_In; [exact Hc|tauto]).
Qed.

Lemma of_grown h h' p l g :
  extends h h' -> closed h p ->
  elements h' (components p) = elements h (components p) ++ l ->
  fst (GitHub.of_ p h) = Some g ->
  fst (GitHub.of_ p h') = Some g.
Proof.
  intros E Hc L Hg. rewrite of_run in *. simpl in *.
  rewrite L, find_app.
  rewrite (find_ext_in (GitHub.isGitHub h') (GitHub.isGitHub h)).
  - now rewrite Hg.
  - intros x Hx. apply extends_instanceof; [assumption|].
    now apply (closed_In h p).
Qed.

End Views.

(** X2. The first [GitHub] of a project stays the one [of] returns: once
    [GitHub.of(project)] returns a component, it returns that same
    component after any further calls, a second [new GitHub] on the
    project included. *)
Theorem of_first_wins (collator : Collator)
    (cs : list Call) (p : Project) (h : Heap) (g : Ref) :
  valid h p -> closed h p ->
  fst (GitHub.of_ p h) = Some g ->
  fst (GitHub.of_ p (snd (performAll cs h))) = Some g.
Proof.
  intros Hv Hc Hg.
  destruct (performAll_grows p cs h Hv) as (E & _ & l & L & _).
  now apply (of_grown h _ p l).
Qed.

Lemma of_first_wins_witness :
  fst (GitHub.of_ sampleProject
         (snd (performAll (collator := ordinalCollator)
                 [CallNew sampleProject (Some sampleOptions);
                  CallAddWorkflow 4%nat "build"]
                 sampleHeap))) = Some 0%nat.
Proof.
  apply (of_first_wins ordinalCollator
           [CallNew sampleProject (Some sampleOptions);
            CallAddWorkflow 4%nat "build"]
           sampleProject sampleHeap 0%nat).
  - unfold valid. vm_compute. lia.
  - unfold closed. vm_compute. repeat constructor.
  - reflexivity.
Defined.

(** ** Projects are kept apart *)

Section Isolation.
Context {collator : Collator}.

Lemma perform_elsewhere c p h :
  valid h p -> target h c <> Some p ->
  elements (snd (perform c h)) (components p) = elements h (components p).
Proof.
  intros Hv Ht.
  assert (Hne : forall q, Some q <> Some p -> components p <> components q).
  { intros q Hq E. apply Hq. destruct p, q. simpl in E. now subst. }
  destruct c; simpl in Ht; unfold perform, bind, ret.
  - rewrite of_run. reflexivity.
  - rewrite new_run. simpl snd.
    rewrite constructing_elements_ne by now apply Hne. now destruct h.
  - apply (query_frame (CallWorkflows this) p h eq_refl Hv).
  - apply (query_frame (CallTryFindWorkflow this n) p h eq_refl Hv).
  - rewrite addWorkflow_run. apply added_elements_ne. now apply Hne.
  - rewrite addPullRequestTemplate_run. apply added_elements_ne. now apply Hne.
  - rewrite addDependabot_run. apply added_elements_ne. now apply Hne.
Qed.

End Isolation.

(** X3. A call that registers on another project, or none, leaves a
    project alone: its component collection is as it was, [of] returns
    what it returned, and [workflows] of its components yields what it
    yielded. *)
Theorem other_projects_untouched (collator : Collator)
    (c : Call) (p : Project) (h : Heap) :
  valid h p -> closed h p ->
  target h c <> Some p ->
  let h' := snd (perform c h) in
  elements h' (components p) = elements h (components p) /\
  fst (GitHub.of_ p h') = fst (GitHub.of_ p h) /\
  forall g, (g < length (objects h))%nat -> projectOf h g = p ->
    sortedWorkflows h' g = sortedWorkflows h g.
Proof.
  intros Hv Hc Ht h'.
  pose proof (perform_elsewhere c p h Hv Ht) as L. fold h' in L.
  pose proof (perform_extends c h) as E. fold h' in E.
  split; [assumption|]. split.
  - rewrite !of_run. simpl. rewrite L.
    apply find_ext_in. intros x Hx.
    apply extends_instanceof; [assumption|]. now apply (closed_In h p).
  - intros g Hg <-.
    apply (sortedWorkflows_same h h' g []); try assumption.
    + now rewrite app_nil_r.
    + reflexivity.
Qed.

Lemma other_projects_untouched_witness :
  let h' := snd (perform (collator := ordinalCollator)
                   (CallNew otherProject None) twoProjects) in
  elements h' (components sampleProject) =
    elements twoProjects (components sampleProject) /\
  fst (GitHub.of_ sampleProject h') = fst (GitHub.of_ sampleProject twoProjects) /\
  forall g, (g < length (objects twoProjects))%nat ->
    projectOf twoProjects g = sampleProject ->
    sortedWorkflows h' g = sortedWorkflows twoProjects g.
Proof.
  apply (other_projects_untouched ordinalCollator (CallNew otherProject None)
           sampleProject twoProjects).
  - unfold valid. vm_compute. lia.
  - unfold closed. vm_compute. repeat constructor.
  - simpl. discriminate.
Defined.

(** ** Looking a workflow up *)

Section Lookup.
Context {collator : Collator}.

(** Sorting leaves the workflows of one name in the order they had. *)
Lemma filter_named_insert n h x l :
  List.filter (GitHub.named n h) (Array.insert (GitHub.byName h) x l) =
  List.filter (GitHub.named n h) (x :: l).
Proof.
  induction l as [|y l IH]; [reflexivity|].
  simpl Array.insert.
  destruct (GitHub.byName h x y <=? 0)%Z eqn:E; [reflexivity|].
  apply Z.leb_gt in E. simpl in *. rewrite IH.
  destruct (GitHub.named n h x) eqn:Nx; [|reflexivity].
  destruct (GitHub.named n h y) eqn:Ny; [|reflexivity].
  apply named_true in Nx, Ny. unfold GitHub.byName in E.
  rewrite Nx, Ny, localeCompare_refl in E. lia.
Qed.

Lemma filter_named_sorted n h l :
  List.filter (GitHub.named n h) (Array.sorted (GitHub.byName h) l) =
  List.filter (GitHub.named n h) l.
Proof.
  induction l as [|x l IH]; [reflexivity|].
  simpl Array.sorted. rewrite filter_named_insert. simpl. now rewrite IH.
Qed.

Lemma find_filter_andb {A} (f g : A -> bool) l :
  List.find g (List.filter f l) = List.find (fun x => f x && g x) l.
Proof.
  induction l as [|x l IH]; simpl; [reflexivity|].
  destruct (f x); simpl; [|assumption]. now destruct (g x).
Qed.

Lemma tryFindWorkflow_find this n h :
  fst (GitHub.tryFindWorkflow this n h) =
  List.find (fun c => GitHub.isWorkflow h c && GitHub.named n h c)
    (elements h (components (projectOf h this))).
Proof.
  rewrite tryFindWorkflow_run. simpl fst. unfold sortedWorkflows.
  rewrite find_head_filter, filter_named_sorted, <- find_head_filter.
  apply find_filter_andb.
Qed.

End Lookup.

(** X4. Which workflow [tryFindWorkflow(name)] returns does not depend on
    the locale: it is the first component of the project, in order of
    registration, that is a workflow with exactly that name. *)
Theorem tryFindWorkflow_earliest (collator : Collator)
    (this : Ref) (n : string) (h : Heap) :
  fst (GitHub.tryFindWorkflow this n h) =
  List.find (fun c => GitHub.isWorkflow h c && GitHub.named n h c)
    (elements h (components (projectOf h this))).
Proof. apply tryFindWorkflow_find. Qed.

(** X5. After [addWorkflow(n)], [tryFindWorkflow(n)] finds a workflow:
    the one it found before when there was one, the new one otherwise;
    and for any other name it returns what it returned before. *)
Theorem addWorkflow_then_tryFindWorkflow (collator : Collator)
    (this : Ref) (n n' : string) (h : Heap) :
  GitHub.isGitHub h this = true ->
  valid h (projectOf h this) -> closed h (projectOf h this) ->
  let (w, h1) := GitHub.addWorkflow this n h in
  fst (GitHub.tryFindWorkflow this n h1) =
    Some (match fst (GitHub.tryFindWorkflow this n h) with
          | Some w0 => w0
          | None => w
          end) /\
  (n' <> n ->
   fst (GitHub.tryFindWorkflow this n' h1) =
   fst (GitHub.tryFindWorkflow this n' h)).
Proof.
  intros Hg Hv Hc. apply isGitHub_allocated in Hg.
  set (p := projectOf h this) in *.
  rewrite addWorkflow_added. fold p.
  set (h1 := added h p (GithubWorkflowBody this n)).
  assert (E : extends h h1) by apply added_extends.
  assert (P1 : projectOf h1 this = p) by now apply extends_projectOf.
  assert (L : elements h1 (components p) =
              elements h (components p) ++ [length (objects h)])
    by now apply added_elements.
  assert (Old : forall m,
             List.find (fun c => GitHub.isWorkflow h1 c && GitHub.named m h1 c)
               (elements h (components p)) =
             List.find (fun c => GitHub.isWorkflow h c && GitHub.named m h c)
               (elements h (components p))).
  { intros m. apply find_ext_in. intros x Hx.
    pose proof (closed_In h p x Hc Hx).
    unfold GitHub.isWorkflow, GitHub.named.
    now rewrite (extends_instanceof h h1), (extends_name h h1). }
  assert (W : GitHub.isWorkflow h1 (length (objects h)) = true)
    by apply (added_instanceof h p (GithubWorkflowBody this n)).
  assert (N : name h1 (length (objects h)) = n) by apply added_name.
  rewrite !tryFindWorkflow_find, P1. fold p. rewrite L, !find_app, !Old.
  split.
  - destruct (List.find _ _); [reflexivity|].
    simpl. rewrite W. unfold GitHub.named. rewrite N, String.eqb_refl.
    reflexivity.
  - intros Hn. destruct (List.find _ _); [reflexivity|].
    simpl. rewrite W. unfold GitHub.named. rewrite N.
    apply not_eq_sym, String.eqb_neq in Hn. now rewrite Hn.
Qed.

Lemma addWorkflow_then_tryFindWorkflow_witness :
  let (w, h1) := GitHub.addWorkflow 0%nat "a" twoWorkflows in
  fst (GitHub.tryFindWorkflow (collator := ordinalCollator) 0%nat "a" h1) =
    Some (match fst (GitHub.tryFindWorkflow (collator := ordinalCollator)
                       0%nat "a" twoWorkflows) with
          | Some w0 => w0
          | None => w
          end) /\
  ("b" <> "a" ->
   fst (GitHub.tryFindWorkflow (collator := ordinalCollator) 0%nat "b" h1) =
   fst (GitHub.tryFindWorkflow (collator := ordinalCollator) 0%nat "b" twoWorkflows)).
Proof.
  apply (addWorkflow_then_tryFindWorkflow ordinalCollator 0%nat "a" "b"
           twoWorkflows).
  - reflexivity.
  - unfold valid. vm_compute. lia.
  - unfold closed. vm_compute. repeat constructor.
Defined.

(** ** What the constructor reads, and what it leaves *)

(** X7. The constructor goes by the values it reads from nine
    properties: a key holding [undefined] counts as a key left out,
    [autoMergeOptions] is never read, and leaving the options out
    altogether is passing the empty object. *)
Theorem constructor_reads_values (p : Project) (o1 o2 : GitHubOptions.t)
    (h : Heap) :
  sameReads o1 o2 ->
  GitHub.new p (Some o1) h = GitHub.new p (Some o2) h /\
  GitHub.new p None h = GitHub.new p (Some GitHubOptions.empty) h.
Proof.
  intros (H1 & H2 & H3 & H4 & H5 & H6 & H7 & H8 & H9).
  split; [|reflexivity].
  rewrite !new_run. simpl JS.nullish.
  unfold builtFields, builtChildren,
    wantsMergify, wantsPullRequestLint, wantsAutoApprove, wantsStale.
  now rewrite H1, H2, H3, H4, H5, H6, H7, H8, H9.
Qed.

Lemma constructor_reads_values_witness :
  GitHub.new sampleProject (Some undefinedOptions) emptyHeap =
    GitHub.new sampleProject (Some GitHubOptions.empty) emptyHeap /\
  GitHub.new sampleProject None emptyHeap =
    GitHub.new sampleProject (Some GitHubOptions.empty) emptyHeap.
Proof.
  apply (constructor_reads_values sampleProject undefinedOptions
           GitHubOptions.empty emptyHeap).
  repeat split.
Defined.

Lemma constructing_project_new os arrs p f cs c :
  In c (seq (length os) (S (length cs))) ->
  projectOf (constructing os arrs p f cs) c = p.
Proof.
  intros Hc. apply in_seq in Hc. unfold projectOf.
  destruct (Nat.eq_dec c (length os)) as [->|Hne].
  - now rewrite constructing_this.
  - replace c with (length os + S (c - S (length os)))%nat by lia.
    rewrite constructing_nth_child.
    destruct (lookup_lt_is_Some_2 cs (c - S (length os))) as [b ->]; [lia|].
    reflexivity.
Qed.

Lemma builtChildren_length g o : (length (builtChildren g o) <= 4)%nat.
Proof.
  unfold builtChildren.
  destruct (wantsMergify o), (wantsPullRequestLint o),
    (wantsAutoApprove o), (wantsStale o); simpl; lia.
Qed.

(** What the constructor registers on an allocated project, under the
    modelled children. *)
Lemma new_registers (p : Project)
    (options : option GitHubOptions.t) (h : Heap) :
  valid h p ->
  let o := options ?? GitHubOptions.empty in
  let (g, h') := GitHub.new p options h in
  let kids := builtChildren g o in
  g = length (objects h) /\
  (length kids <= 4)%nat /\
  elements h' (components p) =
    elements h (components p) ++ g :: seq (S g) (length kids) /\
  (forall k, bodyOf h' (g + S k)%nat = kids !! k) /\
  (forall c, In c (g :: seq (S g) (length kids)) -> projectOf h' c = p).
Proof.
  intros Hv o. rewrite new_run. fold o.
  set (g := length (objects h)). set (kids := builtChildren g o).
  cbv zeta. split; [reflexivity|]. split; [apply builtChildren_length|].
  split; [|split].
  - rewrite constructing_elements by exact Hv. now destruct h.
  - intros k. unfold bodyOf, g. rewrite constructing_nth_child.
    fold g. fold kids. now destruct (kids !! k).
  - intros c Hc. unfold g. now apply constructing_project_new.
Qed.

(** X9. The children the component keeps in its fields are in the
    component collection too: when the constructor leaves a reference in
    [mergify] or [autoApprove], that reference is registered on the
    project of the component, newly, and is an instance of [Mergify],
    respectively [AutoApprove]. *)
Theorem retained_children_registered (p : Project)
    (options : option GitHubOptions.t) (h : Heap) :
  valid h p -> closed h p ->
  let (g, h') := GitHub.new p options h in
  exists f, fieldsOf h' g = Some f /\
    (forall m, mergify f = Some m ->
       In m (elements h' (components p)) /\
       ~ In m (elements h (components p)) /\
       instanceof h' m MergifyClass = true /\
       projectOf h' m = p) /\
    (forall a, autoApprove f = Some a ->
       In a (elements h' (components p)) /\
       ~ In a (elements h (components p)) /\
       instanceof h' a AutoApproveClass = true /\
       projectOf h' a = p).
Proof.
  intros Hv Hc.
  pose proof (new_registers p options h Hv) as R.
  pose proof (new_fieldsOf p options h) as F.
  cbv zeta in R, F.
  set (o := options ?? GitHubOptions.empty) in *.
  destruct (GitHub.new p options h) as [g h'].
  destruct R as (Hg & _ & L & B & P). destruct F as (_ & _ & F & _).
  exists (builtFields g o). split; [assumption|].
  assert (New : forall k b,
            builtChildren g o !! k = Some b ->
            In (g + S k)%nat (elements h' (components p)) /\
            ~ In (g + S k)%nat (elements h (components p)) /\
            instanceof h' (g + S k)%nat (classOf b) = true /\
            projectOf h' (g + S k)%nat = p).
  { intros k b Hk.
    assert (Hlt : (k < length (builtChildren g o))%nat)
      by (eapply lookup_lt_Some; eassumption).
    assert (Hin : In (g + S k)%nat (g :: seq (S g) (length (builtChildren g o))))
      by (right; apply in_seq; lia).
    split; [rewrite L; apply in_or_app; now right|]. split.
    - intros Hold. apply (closed_In h p) in Hold; [|assumption]. lia.
    - split; [|now apply P].
      apply bodyOf_instanceof. now rewrite B. }
  unfold builtFields, builtChildren in *. simpl.
  split.
  - intros m. destruct (wantsMergify o); [|discriminate]. intros [= <-].
    replace (S g) with (g + 1)%nat by lia.
    apply (New 0%nat (MergifyBody g (JS.get (GitHubOptions.mergifyOptions o)))).
    reflexivity.
  - intros a. destruct (wantsAutoApprove o); [|discriminate]. intros [= <-].
    match goal with
    | |- In ?i _ /\ _ =>
        replace i with
          (g + S ((if wantsMergify o then 1 else 0)
                  + (if wantsPullRequestLint o then 1 else 0)))%nat by lia
    end.
    apply (New _ (AutoApproveBody g (JS.get (GitHubOptions.autoApproveOptions o)))).
    destruct (wantsMergify o), (wantsPullRequestLint o); reflexivity.
Qed.

Lemma retained_children_registered_witness :
  let (g, h') := GitHub.new sampleProject (Some sampleOptions) emptyHeap in
  exists f, fieldsOf h' g = Some f /\
    (forall m, mergify f = Some m ->
       In m (elements h' (components sampleProject)) /\
       ~ In m (elements emptyHeap (components sampleProject)) /\
       instanceof h' m MergifyClass = true /\
       projectOf h' m = sampleProject) /\
    (forall a, autoApprove f = Some a ->
       In a (elements h' (components sampleProject)) /\
       ~ In a (elements emptyHeap (components sampleProject)) /\
       instanceof h' a AutoApproveClass = true /\
       projectOf h' a = sampleProject).
Proof.
  apply (retained_children_registered sampleProject (Some sampleOptions)
           emptyHeap).
  - unfold valid. vm_compute. lia.
  - unfold closed. vm_compute. constructor.
Defined.

(** ** Order of the registry *)

Lemma filter_Permutation_bool {A} (f : A -> bool) l1 l2 :
  Permutation l1 l2 -> Permutation (List.filter f l1) (List.filter f l2).
Proof.
  induction 1 as [|x l1 l2 _ IH|x y l|l1 l2 l3 _ IH1 _ IH2]; simpl.
  - constructor.
  - destruct (f x); [now constructor|assumption].
  - destruct (f x), (f y); try reflexivity. apply perm_swap.
  - now rewrite IH1.
Qed.

Lemma StronglySorted_weaken {A} (R R' : A -> A -> Prop) l :
  (forall x y, R x y -> R' x y) -> StronglySorted R l -> StronglySorted R' l.
Proof.
  intros H. induction 1 as [|x l _ IH Hx]; constructor; [assumption|].
  eapply Forall_impl; [exact Hx|]. auto.
Qed.

Lemma name_same_objects h h' w : objects h' = objects h -> name h' w = name h w.
Proof. intros E. unfold name. now rewrite E. Qed.

Lemma instanceof_same_objects h h' c C :
  objects h' = objects h -> instanceof h' c C = instanceof h c C.
Proof. intros E. unfold instanceof. now rewrite E. Qed.

Section Order.
Context {collator : Collator}.

Lemma filter_ties_insert n h x l :
  List.filter (ties n h) (Array.insert (GitHub.byName h) x l) =
  List.filter (ties n h) (x :: l).
Proof.
  induction l as [|y l IH]; [reflexivity|].
  simpl Array.insert.
  destruct (GitHub.byName h x y <=? 0)%Z eqn:E; [reflexivity|].
  apply Z.leb_gt in E. simpl in *. rewrite IH.
  destruct (ties n h x) eqn:Tx; [|reflexivity].
  destruct (ties n h y) eqn:Ty; [|reflexivity].
  unfold ties in Tx, Ty. apply Z.eqb_eq in Tx, Ty.
  apply localeCompare_sym in Ty. unfold GitHub.byName in E.
  pose proof (localeCompare_trans (name h x) n (name h y)). lia.
Qed.

Lemma filter_ties_sorted n h l :
  List.filter (ties n h) (Array.sorted (GitHub.byName h) l) =
  List.filter (ties n h) l.
Proof.
  induction l as [|x l IH]; [reflexivity|].
  simpl Array.sorted. rewrite filter_ties_insert. simpl. now rewrite IH.
Qed.

End Order.

(** X10. Among workflows whose names compare equal, [workflows] keeps the
    order of registration: picking out of its result the workflows whose
    names compare equal to any given string gives them in the order the
    component collection has them. *)
Theorem workflows_ties_in_registration_order (collator : Collator)
    (this : Ref) (n : string) (h : Heap) :
  let (ws, h') := GitHub.workflows this h in
  List.filter (ties n h) (elements h' ws) =
  List.filter (ties n h)
    (List.filter (GitHub.isWorkflow h)
       (elements h (components (projectOf h this)))).
Proof.
  rewrite workflows_run, elements_snoc. apply filter_ties_sorted.
Qed.

(** X11. When no two workflows of a project have names that compare
    equal, the order in which the components were registered does not
    show in [workflows]: on two heaps with the same objects whose
    component collections are permutations of each other, it yields the
    same sequence. *)
Theorem workflows_order_independent (collator : Collator)
    (g g' : Ref) (h h' : Heap) :
  objects h' = objects h ->
  Permutation (elements h' (components (projectOf h' g')))
              (elements h (components (projectOf h g))) ->
  (forall w1 w2,
     In w1 (sortedWorkflows h g) -> In w2 (sortedWorkflows h g) ->
     localeCompare (name h w1) (name h w2) = 0%Z -> w1 = w2) ->
  let (ws, h1) := GitHub.workflows g h in
  let (ws', h1') := GitHub.workflows g' h' in
  elements h1' ws' = elements h1 ws.
Proof.
  intros Ho P Hties. rewrite !workflows_run, !elements_snoc.
  assert (Hcmp : forall x y, GitHub.byName h' x y = GitHub.byName h x y).
  { intros x y. unfold GitHub.byName. now rewrite !(name_same_objects h h'). }
  assert (P' : Permutation (sortedWorkflows h' g') (sortedWorkflows h g)).
  { rewrite !sortedWorkflows_Permutation.
    rewrite (filter_ext_in (GitHub.isWorkflow h') (GitHub.isWorkflow h)).
    - now apply filter_Permutation_bool.
    - intros x _. now apply instanceof_same_objects. }
  apply (StronglySorted_unique_strong
           (fun w1 w2 => (GitHub.byName h w1 w2 <= 0)%Z)).
  - intros x1 x2 H1 H2 L1 L2. apply Hties.
    + apply list_elem_of_In in H1. now apply (Permutation_in _ P').
    + now apply list_elem_of_In.
    + unfold GitHub.byName in *.
      pose proof (localeCompare_antisym (name h x1) (name h x2)).
      pose proof (localeCompare_antisym (name h x2) (name h x1)). lia.
  - pose proof (sortedWorkflows_StronglySorted h' g') as S.
    eapply StronglySorted_weaken; [|exact S].
    intros x y. simpl. now rewrite Hcmp.
  - apply sortedWorkflows_StronglySorted.
  - exact P'.
Qed.

Lemma workflows_order_independent_witness :
  let (ws, h1) := GitHub.workflows (collator := ordinalCollator) 0%nat twoWorkflows in
  let (ws', h1') :=
    GitHub.workflows (collator := ordinalCollator) 0%nat twoWorkflowsSwapped in
  elements h1' ws' = elements h1 ws.
Proof.
  apply (workflows_order_independent ordinalCollator 0%nat 0%nat
           twoWorkflows twoWorkflowsSwapped).
  - reflexivity.
  - vm_compute. apply perm_skip, perm_skip, perm_skip, perm_skip, perm_swap.
  - intros w1 w2 H1 H2.
    vm_compute in H1, H2.
    destruct H1 as [<-|[<-|[]]], H2 as [<-|[<-|[]]];
      vm_compute; congruence.
Defined.
